(** * NotaShare: the local persistence and identity core

    A shallow embedding of the note repository ([hooks/useNotes.ts]), the
    database gateway ([utils/db.ts]), the identity resolver
    ([hooks/useUser.ts], [utils/fingerprint.ts], [utils/avatarGenerator.ts]),
    the two save handlers of the canvas component
    ([components/Canvas.tsx]), the handlers of the application component
    ([components/NotaShareApp.tsx]) and the drag handlers of the panning
    tool ([components/PanningTool.tsx]), followed by the properties of
    the specification that concern them and by further properties of the
    code.

    Conventions of the embedding.
    - JavaScript numbers that hold timestamps, keys and counters are
      integers below 2^53 and are modelled by [Z].
    - A property that may hold [undefined] is an [option]; an object
      whose properties may also be absent ([Partial<Note>]) has an
      [option] of that for each.
    - [Date.now()] and [uuidv4()] are readings of the environment: every
      operation that takes one receives it as an argument.
    - An [async] function is a state transformer over the [World] (the
      IndexedDB database, [localStorage] and a schedule of storage faults)
      that settles as [Resolved] or [Rejected].
    - React state of a hook is a record threaded through its callbacks;
      every callback sees the state of the latest render. *)

From Stdlib Require Import ZArith Lia Bool Ascii String.
From stdpp Require Import gmap strings list sorting pretty.

Local Open Scope string_scope.
Local Open Scope Z_scope.

(** ** JavaScript values and built-ins used by the sources *)

Module JS.

(** A reference that may be [undefined] or [null]. *)
Inductive Nullable (A : Type) : Type :=
  | Undefined
  | Null
  | Value (a : A).
Arguments Undefined {A}.
Arguments Null {A}.
Arguments Value {A} a.

(** [!x] for an object reference. *)
Definition falsy {A} (x : Nullable A) : bool :=
  match x with Value _ => false | _ => true end.

(** The value of a [string | undefined] when it is truthy (defined and
    not the empty string). *)
Definition truthy_string (s : option string) : option string :=
  match s with
  | Some v => if (String.length v =? 0)%nat then None else Some v
  | None => None
  end.

(** [n || 0] on a number. *)
Definition or_zero (n : Z) : Z := if n =? 0 then 0 else n.

(** [Array.prototype.sort(compareFn)]: a stable sort; [a] stays before
    [b] unless [compareFn a b > 0]. *)
Section ArraySort.
Context {A : Type} (compareFn : A -> A -> Z).

Fixpoint sort_insert (a : A) (l : list A) : list A :=
  match l with
  | [] => [a]
  | b :: r => if 0 <? compareFn a b then b :: sort_insert a r else a :: l
  end.

Definition Array_sort (l : list A) : list A := foldr sort_insert [] l.
End ArraySort.

(** The upper-case hexadecimal digit of [n < 16]. *)
Definition hex_digit (n : N) : ascii :=
  if (n <? 10)%N then ascii_of_N (48 + n) else ascii_of_N (55 + n).

Definition uri_unreserved (c : ascii) : bool :=
  let n := N_of_ascii c in
  ((65 <=? n) && (n <=? 90) || (97 <=? n) && (n <=? 122)
   || (48 <=? n) && (n <=? 57))%N
  || existsb (Ascii.eqb c)
       ["-"; "_"; "."; "!"; "~"; "*"; "'"; "("; ")"]%char.

Definition percent_encode (c : ascii) : string :=
  let n := N_of_ascii c in
  String "%"
    (String (hex_digit (n / 16))
       (String (hex_digit (n mod 16)) EmptyString)).

(** [encodeURIComponent] on a UTF-8 byte string: every byte outside the
    unreserved set (letters, digits and the marks listed in
    [uri_unreserved]) becomes [%HH]. *)
Fixpoint encodeURIComponent (s : string) : string :=
  match s with
  | EmptyString => EmptyString
  | String c r =>
      (if uri_unreserved c then String c EmptyString else percent_encode c)
        ++ encodeURIComponent r
  end.

End JS.

Import JS.

(** ** types/index.ts *)

Inductive Direction : Type := ltr | rtl.

Record Point : Type := { point_x : Z; point_y : Z }.

Record TextBox : Type := {
  tb_id : string;
  tb_content : string;
  tb_x : Z;
  tb_y : Z;
  tb_width : Z;
  tb_height : Z;
  tb_zIndex : Z
}.

Record DrawingData : Type := {
  dd_id : string;
  dd_points : list Point;
  dd_color : string;
  dd_width : Z
}.

(** One exported stroke of the drawing surface ([canvasData] is declared
    [any]; the save path stores the array that [exportPaths] returns). *)
Record CanvasPath : Type := {
  drawMode : bool;
  strokeColor : string;
  strokeWidth : Z;
  paths : list Point
}.

Module User.
Record t : Type := {
  id : string;
  avatarUrl : option string;
  createdAt : Z
}.
End User.

Module Stats.
Record t : Type := {
  id : string;
  uniqueUsers : Z
}.
End Stats.

(** A note as the sources hold it at run time. [None] is [undefined].
    The interface declares [title], [createdBy], [createdAt], [textBoxes]
    and [drawings] as required, but an update of type [Partial<Note>] may
    carry any of them holding [undefined], and the spread of
    [saveCurrentNote] copies it into the note. [lastModifiedBy] and
    [lastModifiedAt] are written after the spreads in every note the
    sources build ([createNote], [saveCurrentNote]), from a truthy user id
    and [Date.now()]: they always hold a value. An optional property
    ([id], [canvasData], [textContent], [textDirection]) that is absent and
    one that holds [undefined] read the same everywhere in the sources;
    both are [None]. *)
Module Note.
Record t : Type := {
  id : option Z;
  title : option string;
  createdBy : option string;
  createdAt : option Z;
  lastModifiedBy : string;
  lastModifiedAt : Z;
  textBoxes : option (list TextBox);
  drawings : option (list DrawingData);
  canvasData : option (list CanvasPath);
  textContent : option string;
  textDirection : option Direction
}.

Definition with_id (k : Z) (n : t) : t :=
  {| id := Some k; title := title n; createdBy := createdBy n;
     createdAt := createdAt n; lastModifiedBy := lastModifiedBy n;
     lastModifiedAt := lastModifiedAt n; textBoxes := textBoxes n;
     drawings := drawings n; canvasData := canvasData n;
     textContent := textContent n; textDirection := textDirection n |}.
End Note.

(** [Partial<Note>], and the argument of the [any]-typed
    [saveCurrentNote] prop: each property is absent ([None]) or present,
    and a present property holds a value or [undefined] ([Some None]). *)
Module Partial.
Record t : Type := {
  id : option (option Z);
  title : option (option string);
  createdBy : option (option string);
  createdAt : option (option Z);
  lastModifiedBy : option (option string);
  lastModifiedAt : option (option Z);
  textBoxes : option (option (list TextBox));
  drawings : option (option (list DrawingData));
  canvasData : option (option (list CanvasPath));
  textContent : option (option string);
  textDirection : option (option Direction)
}.

Definition empty : t :=
  {| id := None; title := None; createdBy := None; createdAt := None;
     lastModifiedBy := None; lastModifiedAt := None; textBoxes := None;
     drawings := None; canvasData := None; textContent := None;
     textDirection := None |}.

(** The own property an optional field of a note contributes to a
    spread. *)
Definition own {A} (o : option A) : option (option A) :=
  match o with Some a => Some (Some a) | None => None end.

(** [{ ...note }]: the required properties are own properties of every
    note, whatever they hold. *)
Definition of_note (n : Note.t) : t :=
  {| id := own (Note.id n); title := Some (Note.title n);
     createdBy := Some (Note.createdBy n);
     createdAt := Some (Note.createdAt n);
     lastModifiedBy := Some (Some (Note.lastModifiedBy n));
     lastModifiedAt := Some (Some (Note.lastModifiedAt n));
     textBoxes := Some (Note.textBoxes n);
     drawings := Some (Note.drawings n);
     canvasData := own (Note.canvasData n);
     textContent := own (Note.textContent n);
     textDirection := own (Note.textDirection n) |}.

Definition over {A} (p q : option A) : option A :=
  match q with Some v => Some v | None => p end.

(** [{ ...p, ...q }] *)
Definition assign (p q : t) : t :=
  {| id := over (id p) (id q); title := over (title p) (title q);
     createdBy := over (createdBy p) (createdBy q);
     createdAt := over (createdAt p) (createdAt q);
     lastModifiedBy := over (lastModifiedBy p) (lastModifiedBy q);
     lastModifiedAt := over (lastModifiedAt p) (lastModifiedAt q);
     textBoxes := over (textBoxes p) (textBoxes q);
     drawings := over (drawings p) (drawings q);
     canvasData := over (canvasData p) (canvasData q);
     textContent := over (textContent p) (textContent q);
     textDirection := over (textDirection p) (textDirection q) |}.

(** [{ canvasData: ps }], [{ textContent: s, textDirection: d }] and
    [{ lastModifiedBy: u, lastModifiedAt: t }] *)
Definition canvas (ps : list CanvasPath) : t :=
  {| id := None; title := None; createdBy := None; createdAt := None;
     lastModifiedBy := None; lastModifiedAt := None; textBoxes := None;
     drawings := None; canvasData := Some (Some ps); textContent := None;
     textDirection := None |}.

Definition text (s : string) (d : Direction) : t :=
  {| id := None; title := None; createdBy := None; createdAt := None;
     lastModifiedBy := None; lastModifiedAt := None; textBoxes := None;
     drawings := None; canvasData := None; textContent := Some (Some s);
     textDirection := Some (Some d) |}.

Definition modified (u : string) (at_ : Z) : t :=
  {| id := None; title := None; createdBy := None; createdAt := None;
     lastModifiedBy := Some (Some u); lastModifiedAt := Some (Some at_);
     textBoxes := None; drawings := None; canvasData := None;
     textContent := None; textDirection := None |}.
End Partial.

(** [{ ...n, lastModifiedBy: by, lastModifiedAt: at }] *)
Definition stamp (by_ : string) (at_ : Z) (n : Note.t) : Note.t :=
  {| Note.id := Note.id n; Note.title := Note.title n;
     Note.createdBy := Note.createdBy n; Note.createdAt := Note.createdAt n;
     Note.lastModifiedBy := by_; Note.lastModifiedAt := at_;
     Note.textBoxes := Note.textBoxes n; Note.drawings := Note.drawings n;
     Note.canvasData := Note.canvasData n;
     Note.textContent := Note.textContent n;
     Note.textDirection := Note.textDirection n |}.

(** ** The environment: IndexedDB, [localStorage] and storage faults *)

Inductive Error : Type :=
  | StorageError   (* the database could not be opened, or a request failed *)
  | TypeError.     (* a property of [undefined] was read *)

(** The three object stores of [initDB], the key generator of the
    auto-increment store, the [localStorage] area ([None] when access to
    it throws) and the outcome of the coming transactions ([true]: the
    transaction rejects; an exhausted schedule means no further fault). *)
Record World : Type := {
  store_notes : list (Z * Note.t);
  notes_keygen : Z;
  store_users : gmap string User.t;
  store_stats : gmap string Stats.t;
  localStorage : option (gmap string string);
  faults : list bool
}.

Definition set_faults (fs : list bool) (w : World) : World :=
  {| store_notes := store_notes w; notes_keygen := notes_keygen w;
     store_users := store_users w; store_stats := store_stats w;
     localStorage := localStorage w; faults := fs |}.

Definition set_notes (l : list (Z * Note.t)) (g : Z) (w : World) : World :=
  {| store_notes := l; notes_keygen := g;
     store_users := store_users w; store_stats := store_stats w;
     localStorage := localStorage w; faults := faults w |}.

Definition set_users (m : gmap string User.t) (w : World) : World :=
  {| store_notes := store_notes w; notes_keygen := notes_keygen w;
     store_users := m; store_stats := store_stats w;
     localStorage := localStorage w; faults := faults w |}.

Definition set_stats (m : gmap string Stats.t) (w : World) : World :=
  {| store_notes := store_notes w; notes_keygen := notes_keygen w;
     store_users := store_users w; store_stats := m;
     localStorage := localStorage w; faults := faults w |}.

Definition set_localStorage (ls : gmap string string) (w : World) : World :=
  {| store_notes := store_notes w; notes_keygen := notes_keygen w;
     store_users := store_users w; store_stats := store_stats w;
     localStorage := Some ls; faults := faults w |}.

(** A browser profile on first visit: stores provisioned and empty. *)
Definition fresh_world : World :=
  {| store_notes := []; notes_keygen := 1; store_users := ∅;
     store_stats := ∅; localStorage := Some ∅; faults := [] |}.

(** *** Promises *)

Inductive Settled (A : Type) : Type :=
  | Resolved (a : A)
  | Rejected (e : Error).
Arguments Resolved {A} a.
Arguments Rejected {A} e.

Definition Promise (A : Type) : Type := World -> Settled A * World.

Definition resolve {A} (a : A) : Promise A := fun w => (Resolved a, w).

Definition reject {A} (e : Error) : Promise A := fun w => (Rejected e, w).

(** [const x = await p; k x] *)
Definition await {A B} (p : Promise A) (k : A -> Promise B) : Promise B :=
  fun w =>
    match p w with
    | (Resolved a, w') => k a w'
    | (Rejected e, w') => (Rejected e, w')
    end.

(** [try { p } catch (e) { h e }] *)
Definition try_catch {A} (p : Promise A) (h : Error -> Promise A) : Promise A :=
  fun w =>
    match p w with
    | (Resolved a, w') => (Resolved a, w')
    | (Rejected e, w') => h e w'
    end.

Notation "'let!' x ':=' p 'in' k" := (await p (fun x => k))
  (at level 10, x name, p at level 100, k at level 200).
Notation "'do!' p 'in' k" := (await p (fun _ => k))
  (at level 10, p at level 100, k at level 200).

(** ** utils/db.ts *)

Module Db.

(** The ordered records of the [notes] object store. *)
Fixpoint store_put (k : Z) (v : Note.t) (l : list (Z * Note.t))
  : list (Z * Note.t) :=
  match l with
  | [] => [(k, v)]
  | (k', v') :: r =>
      if k <? k' then (k, v) :: l
      else if k =? k' then (k, v) :: r
      else (k', v') :: store_put k v r
  end.

Fixpoint store_get (k : Z) (l : list (Z * Note.t)) : option Note.t :=
  match l with
  | [] => None
  | (k', v') :: r => if k =? k' then Some v' else store_get k r
  end.

Definition STORES_NOTES : string := "notes".
Definition STORES_USERS : string := "users".
Definition STORES_STATS : string := "stats".

Inductive IDBTransactionMode : Type := readonly | readwrite.

(** [transaction(storeName, mode, callback)]: opens the database, runs the
    single request of [callback] and resolves with its result, or rejects
    and leaves the stores as they were. The callbacks of this file address
    their store themselves; [storeName] and [mode] are kept as written. *)
Definition transaction {T} (storeName : string) (mode : IDBTransactionMode)
    (callback : World -> T * World) : Promise T :=
  fun w =>
    match faults w with
    | true :: fs => (Rejected StorageError, set_faults fs w)
    | false :: fs =>
        let '(r, w') := callback (set_faults fs w) in (Resolved r, w')
    | [] => let '(r, w') := callback w in (Resolved r, w')
    end.

(** [store.put(note)] on the store created with
    [{ keyPath: 'id', autoIncrement: true }]: a note without [id] gets the
    generator's key injected; an explicit key moves the generator past it. *)
Definition notes_put (note : Note.t) (w : World) : Z * World :=
  match Note.id note with
  | Some k =>
      (k, set_notes (store_put k note (store_notes w))
            (if notes_keygen w <=? k then k + 1 else notes_keygen w) w)
  | None =>
      let k := notes_keygen w in
      (k, set_notes (store_put k (Note.with_id k note) (store_notes w))
            (k + 1) w)
  end.

(** The key under which [notes_put] files a note, and the record it
    files there. *)
Definition put_key (note : Note.t) (w : World) : Z :=
  default (notes_keygen w) (Note.id note).

Definition put_record (note : Note.t) (w : World) : Note.t :=
  match Note.id note with
  | Some _ => note
  | None => Note.with_id (notes_keygen w) note
  end.

Definition saveNote (note : Note.t) : Promise Z :=
  transaction STORES_NOTES readwrite (notes_put note).

Definition getNotes : Promise (list Note.t) :=
  transaction STORES_NOTES readonly
    (fun w => (map snd (store_notes w), w)).

(** [store.get(id)] succeeds with [undefined] ([None]) for a key that is
    not in the store. *)
Definition getNote (id : Z) : Promise (option Note.t) :=
  transaction STORES_NOTES readonly
    (fun w => (store_get id (store_notes w), w)).

Definition saveUser (user : User.t) : Promise string :=
  transaction STORES_USERS readwrite (fun w =>
    (User.id user, set_users (<[User.id user := user]> (store_users w)) w)).

Definition getUser (id : string) : Promise (option User.t) :=
  transaction STORES_USERS readonly (fun w => (store_users w !! id, w)).

Definition stats_put (st : Stats.t) (w : World) : string * World :=
  (Stats.id st, set_stats (<[Stats.id st := st]> (store_stats w)) w).

Definition initial_stats : Stats.t :=
  {| Stats.id := "global"; Stats.uniqueUsers := 0 |}.

Definition incrementUniqueUsers : Promise Z :=
  try_catch
    (let! stats :=
       try_catch
         (transaction STORES_STATS readonly
            (fun w => (store_stats w !! "global", w)))
         (fun _ => resolve (Some initial_stats)) in
     match stats with
     | None => reject TypeError
     | Some st =>
         let st' := {| Stats.id := Stats.id st;
                       Stats.uniqueUsers :=
                         or_zero (Stats.uniqueUsers st) + 1 |} in
         do! transaction STORES_STATS readwrite (stats_put st') in
         resolve (Stats.uniqueUsers st')
     end)
    (fun _ => resolve 0).

Definition getStats : Promise (option Stats.t) :=
  transaction STORES_STATS readonly
    (fun w => (store_stats w !! "global", w)).

Definition initStats : Promise unit :=
  try_catch
    (let! stats := try_catch getStats (fun _ => resolve None) in
     match stats with
     | None =>
         do! transaction STORES_STATS readwrite (stats_put initial_stats) in
         resolve tt
     | Some _ => resolve tt
     end)
    (fun _ =>
       try_catch
         (do! transaction STORES_STATS readwrite (stats_put initial_stats) in
          resolve tt)
         (fun _ => resolve tt)).

End Db.

(** ** utils/fingerprint.ts and utils/avatarGenerator.ts *)

Definition FINGERPRINT_KEY : string := "sharenote-fingerprint".

(** [uuid] is the value [uuidv4()] yields in this call. *)
Definition generateFingerprint (uuid : string) (w : World) : string * World :=
  match localStorage w with
  | Some ls =>
      match truthy_string (ls !! FINGERPRINT_KEY) with
      | Some storedFingerprint => (storedFingerprint, w)
      | None => (uuid, set_localStorage (<[FINGERPRINT_KEY := uuid]> ls) w)
      end
  | None => (uuid, w)
  end.

Definition generateAvatar (seed : string) : string :=
  "https://api.dicebear.com/7.x/fun-emoji/svg?seed=" ++ encodeURIComponent seed.

(** ** hooks/useNotes.ts *)

Module UseNotes.

Record State : Type := {
  notes : list Note.t;
  currentNote : Nullable Note.t;
  isLoading : bool;
  error : option Error
}.

Definition initial : State :=
  {| notes := []; currentNote := Null; isLoading := true; error := None |}.

Definition failed (e : Error) (h : State) : State :=
  {| notes := notes h; currentNote := currentNote h;
     isLoading := isLoading h; error := Some e |}.

(** [(a, b) => b.lastModifiedAt - a.lastModifiedAt] *)
Definition compareFn (a b : Note.t) : Z :=
  Note.lastModifiedAt b - Note.lastModifiedAt a.

Definition loadNotes (currentUserId : option string) (h : State) (w : World)
  : State * World :=
  match truthy_string currentUserId with
  | None => (h, w)
  | Some _ =>
      match Db.getNotes w with
      | (Resolved allNotes, w') =>
          let allNotes := Array_sort compareFn allNotes in
          ({| notes := allNotes;
              currentNote :=
                match allNotes with
                | first :: _ =>
                    if falsy (currentNote h) then Value first
                    else currentNote h
                | [] => currentNote h
                end;
              isLoading := false; error := error h |}, w')
      | (Rejected err, w') =>
          ({| notes := notes h; currentNote := currentNote h;
              isLoading := false; error := Some err |}, w')
      end
  end.

Definition newNote (currentUserId : string) (now : Z) : Note.t :=
  {| Note.id := None;
     Note.title := Some ("Note " ++ pretty now);
     Note.createdBy := Some currentUserId;
     Note.createdAt := Some now;
     Note.lastModifiedBy := currentUserId;
     Note.lastModifiedAt := now;
     Note.textBoxes := Some [];
     Note.drawings := Some [];
     Note.canvasData := None;
     Note.textContent := None;
     Note.textDirection := None |}.

(** The branch for a read that finds nothing under the key just written
    keeps the list as it is; [createNote_reads_back] shows that it is never
    taken. *)
Definition createNote (currentUserId : option string) (now : Z)
    (h : State) (w : World) : Nullable Note.t * State * World :=
  match truthy_string currentUserId with
  | None => (Undefined, h, w)
  | Some uid =>
      match (let! noteId := Db.saveNote (newNote uid now) in
             Db.getNote noteId) w with
      | (Resolved (Some savedNote), w') =>
          (Value savedNote,
           {| notes := savedNote :: notes h; currentNote := Value savedNote;
              isLoading := isLoading h; error := error h |}, w')
      | (Resolved None, w') =>
          (Undefined,
           {| notes := notes h; currentNote := Undefined;
              isLoading := isLoading h; error := error h |}, w')
      | (Rejected err, w') => (Null, failed err h, w')
      end
  end.

Definition loadNote (noteId : Z) (h : State) (w : World)
  : Nullable Note.t * State * World :=
  match Db.getNote noteId w with
  | (Resolved note, w') =>
      let note := match note with Some n => Value n | None => Undefined end in
      (note,
       {| notes := notes h; currentNote := note;
          isLoading := isLoading h; error := error h |}, w')
  | (Rejected err, w') => (Null, failed err h, w')
  end.

(** [{ ...currentNote, ...updatedNote, lastModifiedBy: currentUserId,
    lastModifiedAt: Date.now() }]: a property of the update, also one that
    holds [undefined], replaces the current note's; the two stamps come
    last in the literal and replace whatever the spreads gave for them. *)
Definition noteToSave (currentNote : Note.t) (updatedNote : Partial.t)
    (currentUserId : string) (now : Z) : Note.t :=
  {| Note.id := default (Note.id currentNote) (Partial.id updatedNote);
     Note.title := default (Note.title currentNote) (Partial.title updatedNote);
     Note.createdBy :=
       default (Note.createdBy currentNote) (Partial.createdBy updatedNote);
     Note.createdAt :=
       default (Note.createdAt currentNote) (Partial.createdAt updatedNote);
     Note.lastModifiedBy := currentUserId;
     Note.lastModifiedAt := now;
     Note.textBoxes :=
       default (Note.textBoxes currentNote) (Partial.textBoxes updatedNote);
     Note.drawings :=
       default (Note.drawings currentNote) (Partial.drawings updatedNote);
     Note.canvasData :=
       default (Note.canvasData currentNote) (Partial.canvasData updatedNote);
     Note.textContent :=
       default (Note.textContent currentNote)
         (Partial.textContent updatedNote);
     Note.textDirection :=
       default (Note.textDirection currentNote)
         (Partial.textDirection updatedNote) |}.

Definition saveCurrentNote (currentUserId : option string) (now : Z)
    (updatedNote : Partial.t) (h : State) (w : World)
  : Nullable Note.t * State * World :=
  match currentNote h, truthy_string currentUserId with
  | Value current, Some uid =>
      let noteToSave := noteToSave current updatedNote uid now in
      match Db.saveNote noteToSave w with
      | (Resolved _, w') =>
          (Value noteToSave,
           {| notes :=
                Array_sort compareFn
                  (map (fun note =>
                          if bool_decide (Note.id note = Note.id noteToSave)
                          then noteToSave else note)
                       (notes h));
              currentNote := Value noteToSave;
              isLoading := isLoading h; error := error h |}, w')
      | (Rejected err, w') => (Null, failed err h, w')
      end
  | _, _ => (Null, h, w)
  end.

End UseNotes.

(** ** hooks/useUser.ts *)

Module UseUser.

Record State : Type := {
  currentUser : Nullable User.t;
  isLoading : bool;
  uniqueUsers : Z;
  error : option Error
}.

Definition initial : State :=
  {| currentUser := Null; isLoading := true; uniqueUsers := 0;
     error := None |}.

(** A synchronous step inside an [async] function. *)
Definition sync {A} (f : World -> A * World) : Promise A :=
  fun w => let '(a, w') := f w in (Resolved a, w').

Definition newUser (fingerprint : string) (now : Z) : User.t :=
  {| User.id := fingerprint;
     User.avatarUrl := Some (generateAvatar fingerprint);
     User.createdAt := now |}.

(** The body of [initUser] inside its outer [try]: resolves with the user
    and, when the statistics could be read and the count is truthy, the
    count to display. *)
Definition resolveIdentity (now : Z) (uuid : string)
  : Promise (User.t * option Z) :=
  do! Db.initStats in
  let! fingerprint := sync (generateFingerprint uuid) in
  let! existingUser :=
    try_catch (Db.getUser fingerprint) (fun _ => resolve None) in
  let! user :=
    match existingUser with
    | Some user => resolve user
    | None =>
        do! Db.saveUser (newUser fingerprint now) in
        do! Db.incrementUniqueUsers in
        resolve (newUser fingerprint now)
    end in
  let! shown :=
    try_catch
      (let! stats := Db.getStats in
       resolve
         match stats with
         | Some st =>
             if Stats.uniqueUsers st =? 0 then None
             else Some (Stats.uniqueUsers st)
         | None => None
         end)
      (fun _ => resolve None) in
  resolve (user, shown).

Definition initUser (now : Z) (uuid : string) (h : State) (w : World)
  : State * World :=
  match resolveIdentity now uuid w with
  | (Resolved (user, shown), w') =>
      ({| currentUser := Value user; isLoading := false;
          uniqueUsers := default (uniqueUsers h) shown;
          error := error h |}, w')
  | (Rejected err, w') =>
      ({| currentUser := currentUser h; isLoading := false;
          uniqueUsers := uniqueUsers h; error := Some err |}, w')
  end.

End UseUser.

(** ** components/Canvas.tsx: the two save handlers

    The component receives [currentNote] and [saveCurrentNote] from the
    note repository of the same render, so the handlers read the note from
    the repository state they save into. [canvasRef] holds the strokes of
    the live drawing surface when the surface is mounted, [saveCanvasData]
    the cached strokes. *)

Module Canvas.

Inductive Mode : Type := draw | erase | text | pan.

Inductive AutoSaveStatus : Type := idle | saving | saved.

Record State : Type := {
  mode : Mode;
  quickText : string;
  textDirection : Direction;
  autoSaveStatus : AutoSaveStatus;
  saveCanvasData : option (list CanvasPath);
  canvasRef : option (list CanvasPath)
}.

Definition initial : State :=
  {| mode := draw; quickText := EmptyString; textDirection := ltr;
     autoSaveStatus := idle; saveCanvasData := None; canvasRef := None |}.

(** [paths && paths.length > 0] *)
Definition has_paths (ps : option (list CanvasPath)) : bool :=
  match ps with
  | Some (_ :: _) => true
  | _ => false
  end.

Definition set_status (s : AutoSaveStatus) (c : State) : State :=
  {| mode := mode c; quickText := quickText c;
     textDirection := textDirection c; autoSaveStatus := s;
     saveCanvasData := saveCanvasData c; canvasRef := canvasRef c |}.

(** [nowCanvas] is the clock reading of the handler, [nowSave] the one of
    [saveCurrentNote]. The status is the one held after the handler
    settles, before the timer returns it to [idle]. *)
Definition handleSave (currentUserId : string) (nowCanvas nowSave : Z)
    (c : State) (h : UseNotes.State) (w : World)
  : State * UseNotes.State * World :=
  match UseNotes.currentNote h with
  | Value currentNote =>
      let '(paths, cache) :=
        match canvasRef c with
        | Some live =>
            (Some live,
             if has_paths (Some live) then Some live else saveCanvasData c)
        | None => (saveCanvasData c, saveCanvasData c)
        end in
      match paths with
      | None => (set_status saving c, h, w)
      | Some paths =>
          let updatedNote :=
            Partial.assign
              (Partial.assign (Partial.of_note currentNote)
                 (Partial.canvas paths))
              (Partial.modified currentUserId nowCanvas) in
          let '(_, h', w') :=
            UseNotes.saveCurrentNote (Some currentUserId) nowSave
              updatedNote h w in
          ({| mode := mode c; quickText := quickText c;
              textDirection := textDirection c; autoSaveStatus := saved;
              saveCanvasData := cache; canvasRef := canvasRef c |}, h', w')
      end
  | _ => (c, h, w)
  end.

Definition handleSaveText (currentUserId : string) (nowCanvas nowSave : Z)
    (text : string) (direction : Direction)
    (c : State) (h : UseNotes.State) (w : World)
  : State * UseNotes.State * World :=
  match UseNotes.currentNote h with
  | Value currentNote =>
      let '(paths, cache) :=
        match canvasRef c with
        | Some live =>
            if has_paths (saveCanvasData c)
            then (saveCanvasData c, saveCanvasData c)
            else (Some live,
                  if has_paths (Some live) then Some live
                  else saveCanvasData c)
        | None => (saveCanvasData c, saveCanvasData c)
        end in
      let updatedNote :=
        Partial.assign
          (Partial.assign
             (Partial.assign (Partial.of_note currentNote)
                (Partial.text text direction))
             (if has_paths paths
              then Partial.canvas (default [] paths)
              else Partial.empty))
          (Partial.modified currentUserId nowCanvas) in
      let '(_, h', w') :=
        UseNotes.saveCurrentNote (Some currentUserId) nowSave
          updatedNote h w in
      ({| mode := mode c; quickText := text; textDirection := direction;
          autoSaveStatus := saved; saveCanvasData := cache;
          canvasRef := canvasRef c |}, h', w')
  | _ => (c, h, w)
  end.

End Canvas.

(** ** components/NotaShareApp.tsx: the handlers around the repository

    The component holds three flags and calls the repository of the same
    render. Toasts are not part of the state. *)

Module App.

Record State : Type := {
  isSidebarOpen : bool;
  showSaveDialog : bool;
  hasUnsavedChanges : bool
}.

Definition initial : State :=
  {| isSidebarOpen := false; showSaveDialog := false;
     hasUnsavedChanges := false |}.

Definition setHasUnsavedChanges (b : bool) (a : State) : State :=
  {| isSidebarOpen := isSidebarOpen a; showSaveDialog := showSaveDialog a;
     hasUnsavedChanges := b |}.

Definition setShowSaveDialog (b : bool) (a : State) : State :=
  {| isSidebarOpen := isSidebarOpen a; showSaveDialog := b;
     hasUnsavedChanges := hasUnsavedChanges a |}.

Definition onCanvasChange (a : State) : State := setHasUnsavedChanges true a.

Definition createNewNote (currentUserId : option string) (now : Z)
    (a : State) (h : UseNotes.State) (w : World)
  : State * UseNotes.State * World :=
  let '(newNote, h', w') := UseNotes.createNote currentUserId now h w in
  (if falsy newNote then a else setHasUnsavedChanges false a, h', w').

Definition handleNewNoteClick (currentUserId : option string) (now : Z)
    (a : State) (h : UseNotes.State) (w : World)
  : State * UseNotes.State * World :=
  if hasUnsavedChanges a then (setShowSaveDialog true a, h, w)
  else createNewNote currentUserId now a h w.

(** [nowSave] is read only when the open note is saved first. *)
Definition handleNoteSelect (currentUserId : option string) (nowSave : Z)
    (noteId : Z) (a : State) (h : UseNotes.State) (w : World)
  : State * UseNotes.State * World :=
  let '(h1, w1) :=
    if hasUnsavedChanges a then
      match UseNotes.currentNote h with
      | Value currentNote =>
          let '(_, h', w') :=
            UseNotes.saveCurrentNote currentUserId nowSave
              (Partial.of_note currentNote) h w in
          (h', w')
      | _ => (h, w)
      end
    else (h, w) in
  let '(_, h2, w2) := UseNotes.loadNote noteId h1 w1 in
  (setHasUnsavedChanges false a, h2, w2).

Definition handleSaveNote (currentUserId : option string) (now : Z)
    (a : State) (h : UseNotes.State) (w : World)
  : State * UseNotes.State * World :=
  match UseNotes.currentNote h with
  | Value currentNote =>
      let '(_, h', w') :=
        UseNotes.saveCurrentNote currentUserId now
          (Partial.of_note currentNote) h w in
      (setHasUnsavedChanges false a, h', w')
  | _ => (a, h, w)
  end.

(** The two actions of the save dialog. *)
Definition dontSave (currentUserId : option string) (now : Z)
    (a : State) (h : UseNotes.State) (w : World)
  : State * UseNotes.State * World :=
  createNewNote currentUserId now (setShowSaveDialog false a) h w.

Definition saveChanges (currentUserId : option string) (nowSave nowCreate : Z)
    (a : State) (h : UseNotes.State) (w : World)
  : State * UseNotes.State * World :=
  let '(a1, h1, w1) := handleSaveNote currentUserId nowSave a h w in
  createNewNote currentUserId nowCreate (setShowSaveDialog false a1) h1 w1.

End App.

(** ** components/PanningTool.tsx: dragging the viewport

    Pointer positions are integral pixel coordinates. *)

Module PanningTool.

Record State : Type := {
  isPanning : bool;
  initialPosition : Point;
  offset : Point;
  isSpaceDown : bool
}.

Definition initial : State :=
  {| isPanning := false;
     initialPosition := {| point_x := 0; point_y := 0 |};
     offset := {| point_x := 0; point_y := 0 |};
     isSpaceDown := false |}.

(** [isActive] is the prop of that name, [mounted] tells whether
    [containerRef.current] is set, [e] is the pointer position
    [(clientX, clientY)]. *)
Definition handleStartPanning (isActive mounted : bool) (e : Point)
    (s : State) : State :=
  if (isSpaceDown s || isActive) && mounted then
    {| isPanning := true; initialPosition := e; offset := offset s;
       isSpaceDown := isSpaceDown s |}
  else s.

Definition handlePanning (e : Point) (s : State) : State :=
  if isPanning s then
    let dx := point_x e - point_x (initialPosition s) in
    let dy := point_y e - point_y (initialPosition s) in
    {| isPanning := true;
       initialPosition := e;
       offset := {| point_x := point_x (offset s) + dx;
                    point_y := point_y (offset s) + dy |};
       isSpaceDown := isSpaceDown s |}
  else s.

Definition handleStopPanning (s : State) : State :=
  if isPanning s then
    {| isPanning := false; initialPosition := initialPosition s;
       offset := offset s; isSpaceDown := isSpaceDown s |}
  else s.

(** One drag: press at [start], move through [moves], release. *)
Definition drag (isActive mounted : bool) (start : Point)
    (moves : list Point) (s : State) : State :=
  handleStopPanning
    (foldl (fun s e => handlePanning e s)
       (handleStartPanning isActive mounted start s) moves).

End PanningTool.

(** ** Runs of the note repository *)

(** No fault among the next [n] transactions. *)
Fixpoint healthy (n : nat) (fs : list bool) : bool :=
  match n, fs with
  | O, _ => true
  | S _, [] => true
  | S m, b :: r => negb b && healthy m r
  end.

(** The world once the next scheduled outcome is consumed. *)
Definition pop (w : World) : World := set_faults (tail (faults w)) w.

(** The operations of the repository contract, each with the clock
    reading it takes. *)
Inductive Op : Type :=
  | Create (now : Z)
  | Save (now : Z) (partialUpdate : Partial.t)
  | Load (noteId : Z)
  | ListAll.

Definition step (currentUserId : option string) (op : Op)
    (st : UseNotes.State * World) : UseNotes.State * World :=
  let '(h, w) := st in
  match op with
  | Create now =>
      let '(_, h', w') := UseNotes.createNote currentUserId now h w in (h', w')
  | Save now upd =>
      let '(_, h', w') :=
        UseNotes.saveCurrentNote currentUserId now upd h w in (h', w')
  | Load noteId =>
      let '(_, h', w') := UseNotes.loadNote noteId h w in (h', w')
  | ListAll => UseNotes.loadNotes currentUserId h w
  end.

Definition run (currentUserId : option string) (ops : list Op)
    (st : UseNotes.State * World) : UseNotes.State * World :=
  foldl (fun st op => step currentUserId op st) st ops.


(** The update of a save carries no [id] that holds [undefined]. *)
Definition keeps_key (op : Op) : bool :=
  match op with
  | Save _ upd =>
      match Partial.id upd with
      | Some None => false
      | _ => true
      end
  | _ => true
  end.


(** A note whose [createdBy] and [createdAt] hold a value, whose stamps
    are in order and not later than [t], and whose last modifier is a
    non-empty user id. *)
Definition stamped_by (t : Z) (n : Note.t) : Prop :=
  is_Some (Note.createdBy n)
  /\ (exists c, Note.createdAt n = Some c /\ c <= Note.lastModifiedAt n)
  /\ Note.lastModifiedAt n <= t
  /\ Note.lastModifiedBy n <> EmptyString.


(** Records of the note store sit under the key at their key path, in
    ascending key order, below the key generator. *)
Definition keyed_store (w : World) : Prop :=
  StronglySorted Z.lt (map fst (store_notes w))
  /\ (forall k r, In (k, r) (store_notes w) ->
        Note.id r = Some k /\ k < notes_keygen w).

(** A current note that has an [id] is the record stored under it. *)
Definition in_sync (st : UseNotes.State * World) : Prop :=
  keyed_store st.2
  /\ (forall n k, UseNotes.currentNote st.1 = Value n ->
        Note.id n = Some k ->
        Db.store_get k (store_notes st.2) = Some n).

(** A current note has an [id]. *)
Definition keyed_current (st : UseNotes.State * World) : Prop :=
  forall n, UseNotes.currentNote st.1 = Value n -> is_Some (Note.id n).

(** Descending order of [lastModifiedAt]. *)
Definition newer_first (a b : Note.t) : Prop :=
  Note.lastModifiedAt b <= Note.lastModifiedAt a.

(** The value of the global counter ([0] while the record is absent). *)
Definition counter (w : World) : Z :=
  match store_stats w !! "global" with
  | Some st => Stats.uniqueUsers st
  | None => 0
  end.

(** The canvas data a text save persists, in the words of the merge
    policy: the cached paths, and the export of the live surface only when
    the cache is empty. *)
Definition cache_first (c : Canvas.State) : option (list CanvasPath) :=
  if Canvas.has_paths (Canvas.saveCanvasData c) then Canvas.saveCanvasData c
  else match Canvas.canvasRef c with
       | Some live => Some live
       | None => Canvas.saveCanvasData c
       end.

(** ** A sample session

    One device creates a note at clock reading 1000 and saves one stroke
    into it at 2000. *)

Definition demo_user : option string := Some "device-1".

Definition demo_stroke : CanvasPath :=
  {| drawMode := true; strokeColor := "#000000"; strokeWidth := 4;
     paths := [ {| point_x := 1; point_y := 2 |};
                {| point_x := 3; point_y := 5 |} ] |}.

Definition demo_note : Note.t :=
  {| Note.id := Some 1; Note.title := Some "Note 1000";
     Note.createdBy := Some "device-1"; Note.createdAt := Some 1000;
     Note.lastModifiedBy := "device-1"; Note.lastModifiedAt := 2000;
     Note.textBoxes := Some []; Note.drawings := Some [];
     Note.canvasData := Some [demo_stroke];
     Note.textContent := None; Note.textDirection := None |}.

(** The canvas in text mode, one stroke on the surface and in the cache. *)
Definition demo_canvas : Canvas.State :=
  {| Canvas.mode := Canvas.text; Canvas.quickText := EmptyString;
     Canvas.textDirection := ltr; Canvas.autoSaveStatus := Canvas.idle;
     Canvas.saveCanvasData := Some [demo_stroke];
     Canvas.canvasRef := Some [demo_stroke] |}.



(** [{ createdAt: undefined }] *)
Definition demo_undate : Partial.t :=
  {| Partial.id := None; Partial.title := None; Partial.createdBy := None;
     Partial.createdAt := Some None; Partial.lastModifiedBy := None;
     Partial.lastModifiedAt := None; Partial.textBoxes := None;
     Partial.drawings := None; Partial.canvasData := None;
     Partial.textContent := None; Partial.textDirection := None |}.

(** [{ id: undefined }] *)
Definition demo_unkey : Partial.t :=
  {| Partial.id := Some None; Partial.title := None;
     Partial.createdBy := None; Partial.createdAt := None;
     Partial.lastModifiedBy := None; Partial.lastModifiedAt := None;
     Partial.textBoxes := None; Partial.drawings := None;
     Partial.canvasData := None; Partial.textContent := None;
     Partial.textDirection := None |}.

Definition demo_session : UseNotes.State * World :=
  run demo_user [Create 1000; Save 2000 (Partial.canvas [demo_stroke])]
    (UseNotes.initial, fresh_world).

Definition demo_stroke2 : CanvasPath :=
  {| drawMode := true; strokeColor := "#ff0000"; strokeWidth := 2;
     paths := [ {| point_x := 8; point_y := 8 |};
                {| point_x := 9; point_y := 4 |} ] |}.

(** A note created at 1000 and saved at 2000 with two strokes. *)
Definition demo_drawing : UseNotes.State * World :=
  run demo_user
    [Create 1000; Save 2000 (Partial.canvas [demo_stroke; demo_stroke2])]
    (UseNotes.initial, fresh_world).

(** The canvas with both strokes on the surface and a cache that holds
    the first stroke only. *)
Definition demo_stale_canvas : Canvas.State :=
  {| Canvas.mode := Canvas.text; Canvas.quickText := EmptyString;
     Canvas.textDirection := ltr; Canvas.autoSaveStatus := Canvas.idle;
     Canvas.saveCanvasData := Some [demo_stroke];
     Canvas.canvasRef := Some [demo_stroke; demo_stroke2] |}.

(** The sample note after its text is saved at 2500, and a canvas with
    two strokes on the surface and nothing in the cache. *)
Definition demo_texted : UseNotes.State * World :=
  run demo_user [Save 2500 (Partial.text "old" rtl)] demo_session.

Definition demo_uncached_canvas : Canvas.State :=
  {| Canvas.mode := Canvas.draw; Canvas.quickText := "old";
     Canvas.textDirection := rtl; Canvas.autoSaveStatus := Canvas.idle;
     Canvas.saveCanvasData := None;
     Canvas.canvasRef := Some [demo_stroke; demo_stroke2] |}.

(** A longer session: three notes created at 1000, 2000 and 3000; the
    first is opened and saved at 4000, then the second is opened. The
    store holds the notes in key order, stamped 4000, 2000 and 3000. *)
Definition demo_library : UseNotes.State * World :=
  run demo_user
    [Create 1000; Create 2000; Create 3000; Load 1;
     Save 4000 (Partial.text "first" ltr); Load 2]
    (UseNotes.initial, fresh_world).

(** The same after the second note, still open, is saved at 5000: the
    most recent note is the second of the store. *)
Definition demo_shelf : UseNotes.State * World :=
  run demo_user [Save 5000 (Partial.text "second" ltr)] demo_library.

(** * Properties *)

(** ** Storage faults and transactions *)

Lemma set_faults_id w : set_faults (faults w) w = w.
Proof. by destruct w. Qed.

Lemma healthy_pop n w :
  healthy (S n) (faults w) = true -> healthy n (faults (pop w)) = true.
Proof.
  unfold pop; simpl. destruct (faults w) as [|b fs]; simpl.
  - intros _. by destruct n.
  - intros [_ H]%andb_prop. exact H.
Qed.

Lemma healthy_le n m fs :
  (n <= m)%nat -> healthy m fs = true -> healthy n fs = true.
Proof.
  revert m fs. induction n as [|n IH]; intros m fs Hle H; [done|].
  destruct m as [|m]; [lia|]. destruct fs as [|b fs]; [done|].
  simpl in *. apply andb_prop in H as [-> H]. simpl. apply (IH m); [lia|done].
Qed.

Lemma transaction_ok {T} storeName mode (request : World -> T * World) w :
  healthy 1 (faults w) = true ->
  Db.transaction storeName mode request w =
    (Resolved (request (pop w)).1, (request (pop w)).2).
Proof.
  unfold Db.transaction, pop. destruct (faults w) as [|[] fs] eqn:E; simpl.
  - intros _. rewrite <- E, set_faults_id. by destruct (request w).
  - discriminate.
  - intros _. by destruct (request (set_faults fs w)).
Qed.

Lemma transaction_fault {T} storeName mode (request : World -> T * World) w :
  healthy 1 (faults w) = false ->
  Db.transaction storeName mode request w = (Rejected StorageError, pop w).
Proof.
  unfold Db.transaction, pop. by destruct (faults w) as [|[] fs].
Qed.

(** ** The ordered note store *)

Lemma store_get_put_eq k v l : Db.store_get k (Db.store_put k v l) = Some v.
Proof.
  induction l as [|[k' v'] r IH]; simpl.
  - by rewrite Z.eqb_refl.
  - destruct (k <? k') eqn:Hlt; simpl; [by rewrite Z.eqb_refl|].
    destruct (k =? k') eqn:Heq; simpl; [by rewrite Z.eqb_refl|].
    by rewrite Heq.
Qed.

Lemma store_get_put_ne k k' v l :
  k <> k' -> Db.store_get k' (Db.store_put k v l) = Db.store_get k' l.
Proof.
  intros Hne. induction l as [|[k0 v0] r IH]; simpl.
  - destruct (k' =? k) eqn:E; [lia|done].
  - destruct (k <? k0) eqn:Hlt; simpl.
    + destruct (k' =? k) eqn:E; [lia|done].
    + destruct (k =? k0) eqn:Heq; simpl.
      * destruct (k' =? k) eqn:E; [lia|].
        destruct (k' =? k0) eqn:E0; [lia|done].
      * destruct (k' =? k0); [done|apply IH].
Qed.

Lemma store_put_In k v l k' v' :
  In (k', v') (Db.store_put k v l) -> (k', v') = (k, v) \/ In (k', v') l.
Proof.
  induction l as [|[k0 v0] r IH]; simpl.
  - intros [H|[]]; by left.
  - destruct (k <? k0); simpl; [intros [H|H]; auto|].
    destruct (k =? k0); simpl.
    + intros [H|H]; auto.
    + intros [H|H]; auto. destruct (IH H); auto.
Qed.

Lemma store_get_In k v l : Db.store_get k l = Some v -> In (k, v) l.
Proof.
  induction l as [|[k0 v0] r IH]; simpl; [done|].
  destruct (k =? k0) eqn:E.
  - intros [= ->]. left. f_equal. lia.
  - auto.
Qed.

Lemma notes_put_faults note w : faults (Db.notes_put note w).2 = faults w.
Proof. unfold Db.notes_put. by destruct (Note.id note). Qed.

Lemma notes_put_get note w :
  Db.store_get (Db.put_key note w)
    (store_notes (Db.notes_put note (pop w)).2)
  = Some (Db.put_record note w).
Proof.
  unfold Db.notes_put, Db.put_key, Db.put_record.
  destruct (Note.id note); simpl; apply store_get_put_eq.
Qed.

(** ** Sorting the in-memory list *)

Lemma sort_insert_perm (a : Note.t) l :
  sort_insert UseNotes.compareFn a l ≡ₚ a :: l.
Proof.
  induction l as [|b r IH]; simpl; [done|].
  destruct (0 <? UseNotes.compareFn a b); [|done].
  by rewrite IH, Permutation_swap.
Qed.

Lemma Array_sort_perm (l : list Note.t) :
  Array_sort UseNotes.compareFn l ≡ₚ l.
Proof.
  induction l as [|a r IH]; simpl; [done|].
  by rewrite sort_insert_perm, IH.
Qed.

Lemma sort_insert_sorted a l :
  StronglySorted newer_first l ->
  StronglySorted newer_first (sort_insert UseNotes.compareFn a l).
Proof.
  induction 1 as [|b r Hr IH Hb]; simpl.
  - repeat constructor.
  - destruct (0 <? UseNotes.compareFn a b) eqn:E.
    + constructor; [done|].
      apply Forall_forall. intros c Hc.
      rewrite sort_insert_perm in Hc.
      apply elem_of_cons in Hc as [->|Hc].
      * unfold newer_first, UseNotes.compareFn in *. lia.
      * rewrite Forall_forall in Hb. by apply Hb.
    + constructor; [by constructor|].
      constructor.
      * unfold newer_first, UseNotes.compareFn in *. lia.
      * eapply Forall_impl; [exact Hb|].
        intros c Hc. unfold newer_first, UseNotes.compareFn in *. lia.
Qed.

Lemma Array_sort_sorted (l : list Note.t) :
  StronglySorted newer_first (Array_sort UseNotes.compareFn l).
Proof.
  induction l as [|a r IH]; simpl; [constructor|].
  by apply sort_insert_sorted.
Qed.

(** ** The note repository *)

Section NoteRepository.

Variable currentUserId : option string.
Variable uid : string.
Hypothesis acting_user : truthy_string currentUserId = Some uid.


Lemma saveCurrentNote_ok now upd h w current :
  UseNotes.currentNote h = Value current ->
  healthy 1 (faults w) = true ->
  UseNotes.saveCurrentNote currentUserId now upd h w =
    (Value (UseNotes.noteToSave current upd uid now),
     {| UseNotes.notes :=
          Array_sort UseNotes.compareFn
            (map (fun note =>
                    if bool_decide
                         (Note.id note =
                          Note.id (UseNotes.noteToSave current upd uid now))
                    then UseNotes.noteToSave current upd uid now else note)
                 (UseNotes.notes h));
        UseNotes.currentNote := Value (UseNotes.noteToSave current upd uid now);
        UseNotes.isLoading := UseNotes.isLoading h;
        UseNotes.error := UseNotes.error h |},
     (Db.notes_put (UseNotes.noteToSave current upd uid now) (pop w)).2).
Proof.
  intros Hcur Hw. unfold UseNotes.saveCurrentNote, Db.saveNote.
  rewrite Hcur, acting_user, transaction_ok by done. reflexivity.
Qed.

Lemma saveCurrentNote_fault now upd h w current :
  UseNotes.currentNote h = Value current ->
  healthy 1 (faults w) = false ->
  UseNotes.saveCurrentNote currentUserId now upd h w =
    (Null, UseNotes.failed StorageError h, pop w).
Proof.
  intros Hcur Hw. unfold UseNotes.saveCurrentNote, Db.saveNote.
  rewrite Hcur, acting_user, transaction_fault by done. reflexivity.
Qed.

Lemma createNote_ok now h w :
  healthy 2 (faults w) = true ->
  UseNotes.createNote currentUserId now h w =
    (Value (Note.with_id (notes_keygen w) (UseNotes.newNote uid now)),
     {| UseNotes.notes :=
          Note.with_id (notes_keygen w) (UseNotes.newNote uid now)
            :: UseNotes.notes h;
        UseNotes.currentNote :=
          Value (Note.with_id (notes_keygen w) (UseNotes.newNote uid now));
        UseNotes.isLoading := UseNotes.isLoading h;
        UseNotes.error := UseNotes.error h |},
     pop (Db.notes_put (UseNotes.newNote uid now) (pop w)).2).
Proof.
  intros Hw. unfold UseNotes.createNote, await, Db.saveNote, Db.getNote.
  rewrite acting_user.
  rewrite transaction_ok by (apply (healthy_le 1 2); [lia|done]).
  apply healthy_pop in Hw.
  rewrite transaction_ok by (by rewrite notes_put_faults).
  simpl. by rewrite store_get_put_eq.
Qed.

End NoteRepository.

Lemma createNote_reads_back currentUserId now h w :
  is_Some (truthy_string currentUserId) ->
  (UseNotes.createNote currentUserId now h w).1.1 <> Undefined.
Proof.
  intros [uid Hu]. unfold UseNotes.createNote, await, Db.saveNote, Db.getNote.
  rewrite Hu.
  destruct (healthy 1 (faults w)) eqn:H1.
  - rewrite transaction_ok by done.
    destruct (healthy 1 (faults (Db.notes_put (UseNotes.newNote uid now)
                                   (pop w)).2)) eqn:H2.
    + rewrite transaction_ok by done. simpl. by rewrite store_get_put_eq.
    + by rewrite transaction_fault.
  - by rewrite transaction_fault.
Qed.

Example demo_session_current :
  UseNotes.currentNote demo_session.1 = Value demo_note
  /\ Db.store_get 1 (store_notes demo_session.2) = Some demo_note.
Proof. by vm_compute. Qed.

(** C8. With no current note, [saveCurrentNote] is a no-op: it returns
    [null] and leaves the note store, the rest of the world and the
    in-memory state (list included) exactly as they were. *)
Theorem save_without_current_note currentUserId now upd h w :
  falsy (UseNotes.currentNote h) = true ->
  UseNotes.saveCurrentNote currentUserId now upd h w = (Null, h, w).
Proof.
  unfold UseNotes.saveCurrentNote.
  by destruct (UseNotes.currentNote h).
Qed.

Lemma save_without_current_note_witness :
  UseNotes.saveCurrentNote demo_user 3000 (Partial.text "x" ltr)
    (UseNotes.loadNote 7 demo_session.1 demo_session.2).1.2
    demo_session.2
  = (Null, (UseNotes.loadNote 7 demo_session.1 demo_session.2).1.2,
     demo_session.2).
Proof. apply save_without_current_note. by vm_compute. Defined.

(** C1. A successful save spreads the partial update over the whole
    current note: the record then stored (under the note's key, or the key
    the update carries, or a generated key when the update carries an
    [id] that holds [undefined]) keeps the current [canvasData] when the
    update has none (a text-only save), keeps [textContent] and
    [textDirection] when the update has none of them (a canvas-only save),
    and takes every field the update does carry. A current note that has
    an [id] is the record stored under it in every state a session
    reaches ([run_in_sync]). *)
Theorem save_merges_partial_update currentUserId uid now upd h w current k :
  truthy_string currentUserId = Some uid ->
  UseNotes.currentNote h = Value current ->
  Note.id current = Some k ->
  healthy 1 (faults w) = true ->
  exists saved stored h' w',
    UseNotes.saveCurrentNote currentUserId now upd h w
      = (Value saved, h', w') /\
    Note.id saved = default (Some k) (Partial.id upd) /\
    stored = Db.put_record saved w /\
    Db.store_get (Db.put_key saved w) (store_notes w') = Some stored /\
    UseNotes.currentNote h' = Value saved /\
    (Partial.canvasData upd = None ->
       Note.canvasData stored = Note.canvasData current) /\
    (Partial.textContent upd = None ->
       Note.textContent stored = Note.textContent current) /\
    (Partial.textDirection upd = None ->
       Note.textDirection stored = Note.textDirection current) /\
    (forall v, Partial.canvasData upd = Some v -> Note.canvasData stored = v) /\
    (forall v, Partial.textContent upd = Some v ->
       Note.textContent stored = v) /\
    (forall v, Partial.textDirection upd = Some v ->
       Note.textDirection stored = v).
Proof.
  intros Hu Hcur Hk Hw.
  rewrite (saveCurrentNote_ok _ _ Hu _ _ _ _ _ Hcur Hw).
  do 4 eexists. split; [reflexivity|].
  split; [by rewrite <- Hk|]. split; [reflexivity|]. split.
  - apply notes_put_get.
  - split; [done|]. unfold Db.put_record. cbn [Note.id UseNotes.noteToSave].
    destruct (default (Note.id current) (Partial.id upd)); simpl;
      repeat split; intros; match goal with H : _ = _ |- _ => by rewrite H end.
Qed.

Lemma save_merges_partial_update_witness :
  exists saved stored h' w',
    UseNotes.saveCurrentNote demo_user 3000 (Partial.text "x" ltr)
      demo_session.1 demo_session.2 = (Value saved, h', w') /\
    Db.store_get 1 (store_notes w') = Some stored /\
    Note.canvasData stored = Some [demo_stroke] /\
    Note.textContent stored = Some "x".
Proof.
  destruct (save_merges_partial_update demo_user "device-1" 3000
              (Partial.text "x" ltr) demo_session.1 demo_session.2
              demo_note 1)
    as (saved & stored & h' & w' & Hsave & Hid & _ & Hget & _
        & Hcanvas & _ & _ & _ & Htext & _);
    [by vm_compute..|].
  exists saved, stored, h', w'. split; [exact Hsave|]. split.
  - unfold Db.put_key in Hget. by rewrite Hid in Hget.
  - split; [by rewrite Hcanvas|]. by apply Htext.
Defined.

(** *** Loading a note *)

Lemma loadNote_found noteId note h w :
  healthy 1 (faults w) = true ->
  Db.store_get noteId (store_notes w) = Some note ->
  UseNotes.loadNote noteId h w =
    (Value note,
     {| UseNotes.notes := UseNotes.notes h;
        UseNotes.currentNote := Value note;
        UseNotes.isLoading := UseNotes.isLoading h;
        UseNotes.error := UseNotes.error h |}, pop w).
Proof.
  intros Hw Hget. unfold UseNotes.loadNote, Db.getNote.
  rewrite transaction_ok by done. simpl. by rewrite Hget.
Qed.

Lemma loadNote_missing noteId h w :
  healthy 1 (faults w) = true ->
  Db.store_get noteId (store_notes w) = None ->
  UseNotes.loadNote noteId h w =
    (Undefined,
     {| UseNotes.notes := UseNotes.notes h;
        UseNotes.currentNote := Undefined;
        UseNotes.isLoading := UseNotes.isLoading h;
        UseNotes.error := UseNotes.error h |}, pop w).
Proof.
  intros Hw Hget. unfold UseNotes.loadNote, Db.getNote.
  rewrite transaction_ok by done. simpl. by rewrite Hget.
Qed.

Lemma loadNote_fault noteId h w :
  healthy 1 (faults w) = false ->
  UseNotes.loadNote noteId h w
    = (Null, UseNotes.failed StorageError h, pop w).
Proof.
  intros Hw. unfold UseNotes.loadNote, Db.getNote.
  by rewrite transaction_fault.
Qed.

(** C2. At an id that is not in the note store, [loadNote] does not take
    its error path: in the sample session, where note 1 is current and no
    note 7 exists, [loadNote 7] resolves with [undefined] (not the [null]
    of a failed load), records no error, and replaces the current note by
    [undefined]. *)
Theorem loadNote_absent_id_is_not_an_error :
  Db.store_get 7 (store_notes demo_session.2) = None /\
  UseNotes.currentNote demo_session.1 = Value demo_note /\
  UseNotes.loadNote 7 demo_session.1 demo_session.2 =
    (Undefined,
     {| UseNotes.notes := UseNotes.notes demo_session.1;
        UseNotes.currentNote := Undefined;
        UseNotes.isLoading := UseNotes.isLoading demo_session.1;
        UseNotes.error := None |},
     demo_session.2).
Proof. by vm_compute. Qed.

(** *** Creating a note *)

(** C5. When the acting user is defined and the two transactions of
    [createNote] succeed, the note returned is the record read back from
    the store: it carries the key the store's generator assigned, its
    [createdAt] and [lastModifiedAt] are both the clock reading of the
    call, its [createdBy] and [lastModifiedBy] are both the acting user; it
    becomes the current note and the head of the in-memory list. *)
Theorem create_returns_stored_note currentUserId uid now h w :
  truthy_string currentUserId = Some uid ->
  healthy 2 (faults w) = true ->
  exists created h' w',
    UseNotes.createNote currentUserId now h w = (Value created, h', w') /\
    Note.id created = Some (notes_keygen w) /\
    Db.store_get (notes_keygen w) (store_notes w') = Some created /\
    Note.createdAt created = Some (Note.lastModifiedAt created) /\
    Note.createdAt created = Some now /\
    Note.createdBy created = Some uid /\
    Note.lastModifiedBy created = uid /\
    UseNotes.currentNote h' = Value created /\
    UseNotes.notes h' = created :: UseNotes.notes h.
Proof.
  intros Hu Hw. rewrite (createNote_ok _ _ Hu _ _ _ Hw).
  do 3 eexists. split; [reflexivity|].
  simpl. rewrite store_get_put_eq. by repeat split.
Qed.

Lemma create_returns_stored_note_witness :
  exists created h' w',
    UseNotes.createNote demo_user 4000 demo_session.1 demo_session.2
      = (Value created, h', w') /\
    Note.id created = Some 2 /\
    Db.store_get 2 (store_notes w') = Some created /\
    Note.createdAt created = Some (Note.lastModifiedAt created) /\
    Note.createdAt created = Some 4000 /\
    Note.createdBy created = Some "device-1" /\
    Note.lastModifiedBy created = "device-1" /\
    UseNotes.currentNote h' = Value created /\
    UseNotes.notes h' = created :: UseNotes.notes demo_session.1.
Proof.
  apply (create_returns_stored_note demo_user "device-1" 4000
           demo_session.1 demo_session.2); by vm_compute.
Defined.

(** *** The modification stamp *)

(** C3, as the code has it. Each successful save stamps the stored record
    with the clock reading of that call, whether or not the update changes
    a field; of two consecutive saves on a note the second record's
    [lastModifiedAt] exceeds the first's exactly when the clock advanced
    between the two calls. *)
Theorem consecutive_saves_follow_clock
    currentUserId uid now1 now2 upd1 upd2 h w current k :
  truthy_string currentUserId = Some uid ->
  UseNotes.currentNote h = Value current ->
  Note.id current = Some k ->
  healthy 2 (faults w) = true ->
  exists r1 h1 w1 r2 h2 w2,
    UseNotes.saveCurrentNote currentUserId now1 upd1 h w
      = (Value r1, h1, w1) /\
    UseNotes.saveCurrentNote currentUserId now2 upd2 h1 w1
      = (Value r2, h2, w2) /\
    Note.id r1 = default (Some k) (Partial.id upd1) /\
    Note.id r2 = default (Note.id r1) (Partial.id upd2) /\
    Db.store_get (Db.put_key r1 w) (store_notes w1)
      = Some (Db.put_record r1 w) /\
    Db.store_get (Db.put_key r2 w1) (store_notes w2)
      = Some (Db.put_record r2 w1) /\
    Note.lastModifiedAt (Db.put_record r1 w) = now1 /\
    Note.lastModifiedAt (Db.put_record r2 w1) = now2 /\
    (Note.lastModifiedAt (Db.put_record r1 w)
       < Note.lastModifiedAt (Db.put_record r2 w1) <-> now1 < now2).
Proof.
  intros Hu Hcur Hk Hw.
  assert (H1 : healthy 1 (faults w) = true)
    by (apply (healthy_le 1 2); [lia|done]).
  eexists _, _, _, _, _, _.
  split; [exact (saveCurrentNote_ok _ _ Hu now1 upd1 _ _ _ Hcur H1)|].
  split.
  { apply (saveCurrentNote_ok _ _ Hu); [reflexivity|].
    rewrite notes_put_faults. by apply healthy_pop. }
  split; [by rewrite <- Hk|]. split; [done|].
  split; [apply notes_put_get|]. split; [apply notes_put_get|].
  assert (Hstamp : forall n w0,
            Note.lastModifiedAt (Db.put_record n w0) = Note.lastModifiedAt n).
  { intros n w0. unfold Db.put_record. by destruct (Note.id n). }
  rewrite !Hstamp. by repeat split.
Qed.

Lemma consecutive_saves_follow_clock_witness :
  exists r1 h1 w1 r2 h2 w2,
    UseNotes.saveCurrentNote demo_user 3000 (Partial.text "a" ltr)
      demo_session.1 demo_session.2 = (Value r1, h1, w1) /\
    UseNotes.saveCurrentNote demo_user 3001 (Partial.text "b" ltr) h1 w1
      = (Value r2, h2, w2) /\
    Db.store_get 1 (store_notes w1) = Some r1 /\
    Db.store_get 1 (store_notes w2) = Some r2 /\
    Note.lastModifiedAt r1 = 3000 /\
    Note.lastModifiedAt r2 = 3001 /\
    (Note.lastModifiedAt r1 < Note.lastModifiedAt r2 <-> 3000 < 3001).
Proof.
  destruct (consecutive_saves_follow_clock demo_user "device-1" 3000 3001
              (Partial.text "a" ltr) (Partial.text "b" ltr)
              demo_session.1 demo_session.2 demo_note 1)
    as (r1 & h1 & w1 & r2 & h2 & w2 & E1 & E2 & Hid1 & Hid2 & Hget1 & Hget2
        & Hm1 & Hm2 & Hlt); [by vm_compute..|].
  exists r1, h1, w1, r2, h2, w2.
  simpl in Hid1, Hid2. rewrite Hid1 in Hid2.
  unfold Db.put_record, Db.put_key in Hget1, Hget2, Hm1, Hm2, Hlt.
  rewrite Hid1 in Hget1, Hm1, Hlt. rewrite Hid2 in Hget2, Hm2, Hlt.
  split; [exact E1|]. split; [exact E2|]. split; [exact Hget1|].
  split; [exact Hget2|]. split; [exact Hm1|]. split; [exact Hm2|exact Hlt].
Defined.

(** C3, as stated, fails: two saves of the sample note taken at the same
    clock reading, the second changing the text, store records with equal
    [lastModifiedAt]. *)
Lemma saves_within_one_millisecond :
  let '(r1, h1, w1) :=
    UseNotes.saveCurrentNote demo_user 3000 (Partial.text "a" ltr)
      demo_session.1 demo_session.2 in
  let '(r2, h2, w2) :=
    UseNotes.saveCurrentNote demo_user 3000 (Partial.text "b" ltr) h1 w1 in
  exists n1 n2,
    r1 = Value n1 /\ r2 = Value n2 /\
    Db.store_get 1 (store_notes w1) = Some n1 /\
    Db.store_get 1 (store_notes w2) = Some n2 /\
    Note.textContent n1 <> Note.textContent n2 /\
    ~ (Note.lastModifiedAt n1 < Note.lastModifiedAt n2).
Proof.
  vm_compute. do 2 eexists.
  split; [reflexivity|]. split; [reflexivity|].
  split; [reflexivity|]. split; [reflexivity|].
  split; [discriminate|]. simpl. discriminate.
Qed.

(** *** The stamps of stored notes *)



Lemma stamped_by_with_id t k n :
  stamped_by t n -> stamped_by t (Note.with_id k n).
Proof. by destruct n. Qed.








(** An update that carries [createdAt: undefined] leaves the stored
    record without a [createdAt]: the spread copies the property as it
    is. *)
Example undefined_creation_stamp :
  exists r,
    Db.store_get 1
      (store_notes
         (run demo_user [Create 1000; Save 2000 demo_undate]
            (UseNotes.initial, fresh_world)).2) = Some r
    /\ Note.createdAt r = None
    /\ Note.lastModifiedAt r = 2000.
Proof. vm_compute. by eexists. Qed.

(** *** Listing *)

Lemma loadNotes_ok currentUserId uid h w :
  truthy_string currentUserId = Some uid ->
  healthy 1 (faults w) = true ->
  UseNotes.notes (UseNotes.loadNotes currentUserId h w).1
    = Array_sort UseNotes.compareFn (map snd (store_notes w))
  /\ store_notes (UseNotes.loadNotes currentUserId h w).2 = store_notes w.
Proof.
  intros Hu Hw. unfold UseNotes.loadNotes, Db.getNotes.
  by rewrite Hu, transaction_ok.
Qed.

(** C7. [loadNotes] leaves in memory the stored notes in descending order
    of [lastModifiedAt]; a successful save leaves the in-memory list in
    that order again, with the saved note (stamped with the clock reading
    of the call) in place of every entry of its id: the entries before it
    are at least as recent as its new stamp and those after it at most. *)
Theorem listing_is_newest_first currentUserId uid now upd h w :
  truthy_string currentUserId = Some uid ->
  healthy 1 (faults w) = true ->
  (StronglySorted newer_first
     (UseNotes.notes (UseNotes.loadNotes currentUserId h w).1)
   /\ UseNotes.notes (UseNotes.loadNotes currentUserId h w).1
        ≡ₚ map snd (store_notes w))
  /\ (forall current, UseNotes.currentNote h = Value current ->
      exists saved h' w',
        UseNotes.saveCurrentNote currentUserId now upd h w
          = (Value saved, h', w') /\
        Note.lastModifiedAt saved = now /\
        StronglySorted newer_first (UseNotes.notes h') /\
        UseNotes.notes h'
          ≡ₚ map (fun note =>
                    if bool_decide (Note.id note = Note.id saved)
                    then saved else note) (UseNotes.notes h) /\
        (forall note, note ∈ UseNotes.notes h' ->
           Note.id note = Note.id saved -> note = saved) /\
        (forall note, note ∈ UseNotes.notes h ->
           Note.id note = Note.id saved ->
           exists before after,
             UseNotes.notes h' = (before ++ saved :: after)%list /\
             Forall (fun n => now <= Note.lastModifiedAt n) before /\
             Forall (fun n => Note.lastModifiedAt n <= now) after)).
Proof.
  intros Hu Hw. split.
  - destruct (loadNotes_ok _ _ h w Hu Hw) as [-> _].
    split; [apply Array_sort_sorted|apply Array_sort_perm].
  - intros current Hcur.
    rewrite (saveCurrentNote_ok _ _ Hu _ _ _ _ _ Hcur Hw).
    set (saved := UseNotes.noteToSave current upd uid now).
    do 3 eexists. split; [reflexivity|]. cbn [UseNotes.notes].
    set (f := fun note : Note.t =>
                if bool_decide (Note.id note = Note.id saved)
                then saved else note).
    assert (Hperm : Array_sort UseNotes.compareFn (map f (UseNotes.notes h))
                      ≡ₚ map f (UseNotes.notes h))
      by apply Array_sort_perm.
    assert (Hsorted := Array_sort_sorted (map f (UseNotes.notes h))).
    split; [done|]. split; [done|]. split; [done|]. split.
    + intros note Hin Hid. rewrite Hperm in Hin.
      change (note ∈ f <$> UseNotes.notes h) in Hin.
      apply list_elem_of_fmap in Hin as (n0 & -> & _). unfold f in *.
      destruct (bool_decide (Note.id n0 = Note.id saved)) eqn:E; [done|].
      apply bool_decide_eq_false in E. done.
    + intros note Hin Hid.
      assert (Hsaved : saved ∈ Array_sort UseNotes.compareFn
                                 (map f (UseNotes.notes h))).
      { rewrite Hperm. change (saved ∈ f <$> UseNotes.notes h).
        apply list_elem_of_fmap. exists note. split; [|done].
        unfold f. by rewrite bool_decide_eq_true_2. }
      apply list_elem_of_split in Hsaved as (before & after & Heq).
      exists before, after. split; [done|].
      rewrite Heq in Hsorted.
      apply StronglySorted_app in Hsorted as (Hcross & _ & Hafter).
      apply StronglySorted_cons in Hafter as [Hafter _].
      split.
      * apply Forall_forall. intros n Hn.
        apply (Hcross n saved Hn). left.
      * exact Hafter.
Qed.

Lemma listing_is_newest_first_witness :
  map Note.lastModifiedAt (map snd (store_notes demo_library.2))
    = [4000; 2000; 3000]
  /\ map Note.lastModifiedAt
       (UseNotes.notes
          (UseNotes.loadNotes demo_user UseNotes.initial demo_library.2).1)
     = [4000; 3000; 2000]
  /\ StronglySorted newer_first
       (UseNotes.notes
          (UseNotes.loadNotes demo_user UseNotes.initial demo_library.2).1)
  /\ UseNotes.notes
       (UseNotes.loadNotes demo_user UseNotes.initial demo_library.2).1
       ≡ₚ map snd (store_notes demo_library.2)
  /\ map Note.id (UseNotes.notes demo_library.1) = [Some 1; Some 3; Some 2]
  /\ exists saved h' w',
       UseNotes.saveCurrentNote demo_user 5000 (Partial.canvas [demo_stroke])
         demo_library.1 demo_library.2 = (Value saved, h', w') /\
       Note.id saved = Some 2 /\
       Note.lastModifiedAt saved = 5000 /\
       map Note.id (UseNotes.notes h') = [Some 2; Some 1; Some 3] /\
       map Note.lastModifiedAt (UseNotes.notes h') = [5000; 4000; 3000] /\
       StronglySorted newer_first (UseNotes.notes h') /\
       exists before after,
         UseNotes.notes h' = (before ++ saved :: after)%list /\
         Forall (fun n => 5000 <= Note.lastModifiedAt n) before /\
         Forall (fun n => Note.lastModifiedAt n <= 5000) after.
Proof.
  split; [reflexivity|]. split; [reflexivity|].
  destruct (listing_is_newest_first demo_user "device-1" 5000
              (Partial.canvas [demo_stroke]) UseNotes.initial demo_library.2)
    as [[Hsorted Hperm] _]; [by vm_compute..|].
  split; [exact Hsorted|]. split; [exact Hperm|]. split; [reflexivity|].
  destruct (listing_is_newest_first demo_user "device-1" 5000
              (Partial.canvas [demo_stroke]) demo_library.1 demo_library.2)
    as [_ Hsave]; [by vm_compute..|].
  destruct (Hsave (Note.with_id 2 (UseNotes.newNote "device-1" 2000)))
    as (saved & h' & w' & E & Hstamp & Hs & _ & _ & Hpos); [by vm_compute|].
  exists saved, h', w'. split; [exact E|].
  assert (Hid : Note.id saved = Some 2
                /\ map Note.id (UseNotes.notes h') = [Some 2; Some 1; Some 3]
                /\ map Note.lastModifiedAt (UseNotes.notes h')
                   = [5000; 4000; 3000]).
  { vm_compute in E. by simplify_eq. }
  destruct Hid as (Hid & Hids & Hstamps).
  split; [exact Hid|]. split; [exact Hstamp|]. split; [exact Hids|].
  split; [exact Hstamps|]. split; [exact Hs|].
  apply (Hpos (Note.with_id 2 (UseNotes.newNote "device-1" 2000))).
  - apply list_elem_of_In. vm_compute. tauto.
  - by rewrite Hid.
Defined.

(** *** The current note and its stored record *)

Lemma store_put_sorted k v l :
  StronglySorted Z.lt (map fst l) ->
  StronglySorted Z.lt (map fst (Db.store_put k v l)).
Proof.
  induction l as [|[k0 v0] r IH]; simpl; intros Hs.
  - repeat constructor.
  - apply StronglySorted_cons in Hs as [Hall Hs].
    destruct (k <? k0) eqn:Hlt; simpl.
    + apply Z.ltb_lt in Hlt. constructor; [by constructor|].
      constructor; [done|]. eapply Forall_impl; [exact Hall|].
      simpl. lia.
    + destruct (k =? k0) eqn:Heq; simpl.
      * apply Z.eqb_eq in Heq as ->. by constructor.
      * constructor; [by apply IH|].
        apply Forall_forall. intros k' Hk'.
        apply list_elem_of_In, in_map_iff in Hk' as ([k1 v1] & <- & Hin).
        apply store_put_In in Hin as [[= -> ->]|Hin]; simpl; [lia|].
        rewrite Forall_forall in Hall. apply Hall.
        apply list_elem_of_In, in_map_iff. by exists (k1, v1).
Qed.

Lemma store_get_sorted k r l :
  StronglySorted Z.lt (map fst l) -> In (k, r) l ->
  Db.store_get k l = Some r.
Proof.
  induction l as [|[k0 v0] l IH]; simpl; [done|].
  intros [Hall Hs]%StronglySorted_cons [[= -> ->]|Hin].
  - by rewrite Z.eqb_refl.
  - destruct (k =? k0) eqn:E; [|by apply IH].
    apply Z.eqb_eq in E as ->. rewrite Forall_forall in Hall.
    assert (k0 < k0); [|lia].
    apply Hall, list_elem_of_In, in_map_iff. by exists (k0, r).
Qed.

Lemma notes_put_keyed note w :
  keyed_store w -> keyed_store (Db.notes_put note (pop w)).2.
Proof.
  intros [Hs Hk]. unfold Db.notes_put, keyed_store.
  destruct (Note.id note) as [k|] eqn:Hid; simpl.
  - split; [by apply store_put_sorted|].
    intros k' r Hin. apply store_put_In in Hin as [[= -> ->]|Hin].
    + split; [done|]. destruct (notes_keygen w <=? k) eqn:E; lia.
    + destruct (Hk k' r Hin). split; [done|].
      destruct (notes_keygen w <=? k) eqn:E; lia.
  - split; [by apply store_put_sorted|].
    intros k' r Hin. apply store_put_In in Hin as [[= -> ->]|Hin].
    + split; [done|lia].
    + destruct (Hk k' r Hin). split; [done|lia].
Qed.

Lemma step_in_sync currentUserId op st :
  in_sync st -> in_sync (step currentUserId op st).
Proof.
  destruct st as [h w]. intros [Hkeyed Hcur]. simpl in Hkeyed, Hcur.
  destruct op as [now|now upd|noteId|]; unfold step.
  - (* create *)
    unfold UseNotes.createNote, await, Db.saveNote, Db.getNote.
    destruct (truthy_string currentUserId) as [uid|] eqn:Hu; [|by split].
    destruct (healthy 1 (faults w)) eqn:H1;
      [rewrite transaction_ok by done
      |rewrite transaction_fault by done; by split].
    pose proof (notes_put_keyed (UseNotes.newNote uid now) w Hkeyed) as Hput.
    destruct (healthy 1 (faults (Db.notes_put (UseNotes.newNote uid now)
                                   (pop w)).2)) eqn:H2;
      [rewrite transaction_ok by done|rewrite transaction_fault by done].
    + simpl. rewrite store_get_put_eq. split; [exact Hput|]. simpl.
      intros n k [= <-] [= <-]. apply store_get_put_eq.
    + split; [exact Hput|]. simpl. intros n k Hn Hid.
      pose proof (Hcur n k Hn Hid) as Hget.
      rewrite store_get_put_ne; [done|].
      destruct Hkeyed as [_ Hk].
      destruct (Hk k n (store_get_In _ _ _ Hget)). lia.
  - (* save *)
    destruct (UseNotes.currentNote h) as [| |current] eqn:E;
      try (unfold UseNotes.saveCurrentNote; rewrite E; split; simpl;
           [done|by rewrite E]).
    destruct (truthy_string currentUserId) as [uid|] eqn:Hu;
      [|unfold UseNotes.saveCurrentNote; rewrite E, Hu; split; simpl;
        [done|by rewrite E]].
    destruct (healthy 1 (faults w)) eqn:H1.
    + rewrite (saveCurrentNote_ok _ _ Hu _ _ _ _ _ E H1).
      split; [by apply notes_put_keyed|]. simpl.
      intros n k [= <-] Hid.
      pose proof (notes_put_get (UseNotes.noteToSave current upd uid now) w)
        as Hget.
      unfold Db.put_key, Db.put_record in Hget. by rewrite Hid in Hget.
    + rewrite (saveCurrentNote_fault _ _ Hu _ _ _ _ _ E H1).
      split; simpl; [done|]. by rewrite E.
  - (* load *)
    destruct (healthy 1 (faults w)) eqn:H1.
    + destruct (Db.store_get noteId (store_notes w)) as [n|] eqn:Hget.
      * rewrite (loadNote_found _ _ _ _ H1 Hget). split; simpl; [done|].
        intros ? k [= <-] Hid.
        destruct Hkeyed as [_ Hk].
        destruct (Hk noteId n (store_get_In _ _ _ Hget)) as [Hid' _].
        by simplify_eq.
      * rewrite (loadNote_missing _ _ _ H1 Hget). by split.
    + rewrite (loadNote_fault _ _ _ H1). by split.
  - (* list *)
    unfold UseNotes.loadNotes, Db.getNotes.
    destruct (truthy_string currentUserId); [|by split].
    destruct (healthy 1 (faults w)) eqn:H1;
      [rewrite transaction_ok by done
      |rewrite transaction_fault by done; by split].
    simpl. split; simpl; [done|].
    destruct (Array_sort UseNotes.compareFn (map snd (store_notes w)))
      as [|first rest] eqn:Hsort; [done|].
    destruct (UseNotes.currentNote h) as [| |current] eqn:E; simpl;
      try done.
    all: intros n k0 [= <-] Hid.
    all: assert (Hin : first ∈ map snd (store_notes w))
      by (rewrite <- (Array_sort_perm (map snd (store_notes w))), Hsort;
          left).
    all: apply list_elem_of_In, in_map_iff in Hin as ([k r] & <- & Hin).
    all: destruct Hkeyed as [Hsorted Hk].
    all: destruct (Hk k r Hin) as [Hid' _]; simpl in Hid.
    all: assert (k0 = k) as -> by congruence.
    all: by apply store_get_sorted.
Qed.

(** In every state a session reaches from a synchronised one, a current
    note that has an [id] is the record the store holds under it; so the
    fields a save merges over are those of the stored record. *)
Lemma run_in_sync currentUserId ops st :
  in_sync st -> in_sync (run currentUserId ops st).
Proof.
  revert st. induction ops as [|op ops IH]; intros st Hst; [done|].
  apply (IH (step currentUserId op st)). by apply step_in_sync.
Qed.

Lemma fresh_in_sync : in_sync (UseNotes.initial, fresh_world).
Proof.
  split; [split|]; simpl; [constructor|intros ? ? []|discriminate].
Qed.

(** A current note keeps having an [id] as long as no update carries an
    [id] that holds [undefined]. *)
Lemma step_keyed_current currentUserId op st :
  keyed_store st.2 -> keyed_current st -> keeps_key op = true ->
  keyed_current (step currentUserId op st).
Proof.
  destruct st as [h w]. unfold keyed_current. simpl.
  intros Hkeyed Hcur Hop.
  destruct op as [now|now upd|noteId|]; unfold step.
  - (* create *)
    unfold UseNotes.createNote, await, Db.saveNote, Db.getNote.
    destruct (truthy_string currentUserId) as [uid|] eqn:Hu; [|done].
    destruct (healthy 1 (faults w)) eqn:H1;
      [rewrite transaction_ok by done
      |by rewrite transaction_fault by done].
    destruct (healthy 1 (faults (Db.notes_put (UseNotes.newNote uid now)
                                   (pop w)).2)) eqn:H2;
      [rewrite transaction_ok by done|by rewrite transaction_fault by done].
    simpl. rewrite store_get_put_eq. simpl. by intros n [= <-].
  - (* save *)
    destruct (UseNotes.currentNote h) as [| |current] eqn:E;
      try (unfold UseNotes.saveCurrentNote; rewrite E; simpl;
           by rewrite E).
    destruct (truthy_string currentUserId) as [uid|] eqn:Hu;
      [|unfold UseNotes.saveCurrentNote; rewrite E, Hu; simpl;
        by rewrite E].
    destruct (healthy 1 (faults w)) eqn:H1.
    + rewrite (saveCurrentNote_ok _ _ Hu _ _ _ _ _ E H1). simpl.
      intros n [= <-]. simpl. simpl in Hop.
      destruct (Partial.id upd) as [[k|]|]; simpl; [done|done|].
      by apply Hcur.
    + rewrite (saveCurrentNote_fault _ _ Hu _ _ _ _ _ E H1). simpl.
      by rewrite E.
  - (* load *)
    destruct (healthy 1 (faults w)) eqn:H1.
    + destruct (Db.store_get noteId (store_notes w)) as [n|] eqn:Hget.
      * rewrite (loadNote_found _ _ _ _ H1 Hget). simpl.
        intros ? [= <-]. destruct Hkeyed as [_ Hk].
        destruct (Hk noteId n (store_get_In _ _ _ Hget)) as [-> _]. done.
      * by rewrite (loadNote_missing _ _ _ H1 Hget).
    + by rewrite (loadNote_fault _ _ _ H1).
  - (* list *)
    unfold UseNotes.loadNotes, Db.getNotes.
    destruct (truthy_string currentUserId); [|done].
    destruct (healthy 1 (faults w)) eqn:H1;
      [rewrite transaction_ok by done
      |by rewrite transaction_fault by done].
    simpl.
    destruct (Array_sort UseNotes.compareFn (map snd (store_notes w)))
      as [|first rest] eqn:Hsort; [done|].
    destruct (UseNotes.currentNote h) as [| |current] eqn:E; simpl;
      try done.
    all: intros n [= <-].
    all: assert (Hin : first ∈ map snd (store_notes w))
      by (rewrite <- (Array_sort_perm (map snd (store_notes w))), Hsort;
          left).
    all: apply list_elem_of_In, in_map_iff in Hin as ([k r] & <- & Hin).
    all: destruct Hkeyed as [_ Hk].
    all: destruct (Hk k r Hin) as [Hid _]; simpl; by rewrite Hid.
Qed.

Lemma run_keyed_current currentUserId ops st :
  in_sync st -> keyed_current st -> forallb keeps_key ops = true ->
  keyed_current (run currentUserId ops st).
Proof.
  revert st. induction ops as [|op ops IH]; intros st Hst Hcur Hops; [done|].
  simpl in Hops. apply andb_prop in Hops as [Hop Hops].
  apply (IH (step currentUserId op st)); [by apply step_in_sync| |done].
  apply step_keyed_current; [by destruct Hst|done..].
Qed.

(** ** The unique-user counter *)

(** C10, as the code has it. [incrementUniqueUsers] never rejects, and
    touches no store but the statistics. When the read and the write
    succeed on a present record it writes the stored count plus one and
    resolves with it; when the read succeeds on an absent record (the
    field access on [undefined] throws) or the write fails it resolves with
    [0] and writes nothing; when the read itself fails the count restarts
    from zero, and a successful write then stores [1] and resolves with
    it. *)
Theorem incrementUniqueUsers_never_rejects w :
  exists n w',
    Db.incrementUniqueUsers w = (Resolved n, w') /\
    store_notes w' = store_notes w /\ store_users w' = store_users w /\
    match healthy 1 (faults w), healthy 1 (faults (pop w)),
          store_stats w !! "global" with
    | true, true, Some st =>
        n = or_zero (Stats.uniqueUsers st) + 1 /\
        store_stats w' =
          <[Stats.id st := {| Stats.id := Stats.id st;
                              Stats.uniqueUsers := n |}]> (store_stats w)
    | false, true, _ =>
        n = 1 /\
        store_stats w' =
          <["global" := {| Stats.id := "global";
                           Stats.uniqueUsers := 1 |}]> (store_stats w)
    | _, _, _ => n = 0 /\ store_stats w' = store_stats w
    end.
Proof.
  unfold Db.incrementUniqueUsers, try_catch, await, resolve, reject.
  destruct (healthy 1 (faults w)) eqn:H1.
  - rewrite transaction_ok by done. cbn [fst snd].
    change (store_stats (pop w)) with (store_stats w).
    destruct (store_stats w !! "global") as [st|] eqn:Hst.
    + destruct (healthy 1 (faults (pop w))) eqn:H2.
      * rewrite transaction_ok by done.
        do 2 eexists. split; [reflexivity|]. by repeat split.
      * rewrite transaction_fault by done.
        do 2 eexists. split; [reflexivity|]. by repeat split.
    + do 2 eexists. split; [reflexivity|].
      destruct (healthy 1 (faults (pop w))); by repeat split.
  - rewrite transaction_fault by done. cbn [fst snd].
    destruct (healthy 1 (faults (pop w))) eqn:H2.
    + rewrite transaction_ok by done.
      do 2 eexists. split; [reflexivity|]. by repeat split.
    + rewrite transaction_fault by done.
      do 2 eexists. split; [reflexivity|]. by repeat split.
Qed.

(** On a store without the statistics record nothing is written. *)
Example increment_without_record :
  Db.incrementUniqueUsers fresh_world = (Resolved 0, fresh_world).
Proof. reflexivity. Qed.

(** C10, as stated, fails: when the read of the statistics record is
    rejected, the function does not resolve with [0] and leave the store
    alone; on a store that has counted five devices it overwrites the
    record with a count of [1] and resolves with [1]. *)
Lemma failed_read_restarts_count :
  let w := set_faults [true]
             (set_stats {[ "global" := {| Stats.id := "global";
                                          Stats.uniqueUsers := 5 |} ]}
                fresh_world) in
  Db.getStats w = (Rejected StorageError, pop w) /\
  counter w = 5 /\
  (Db.incrementUniqueUsers w).1 = Resolved 1 /\
  counter (Db.incrementUniqueUsers w).2 = 1.
Proof. by vm_compute. Qed.

Lemma healthy_tail n fs :
  healthy (S n) fs = true -> healthy n (tail fs) = true.
Proof.
  destruct fs as [|b fs]; simpl; [by destruct n|].
  by intros [_ H]%andb_prop.
Qed.

(** Discharges [healthy n fs = true] for the schedule left after some
    transactions, from the hypothesis on the initial schedule. *)
Ltac still_healthy :=
  cbn [faults pop set_faults set_notes set_users set_stats set_localStorage];
  repeat apply healthy_tail;
  match goal with
  | H : healthy _ ?fs = true |- healthy _ ?fs = true =>
      refine (healthy_le _ _ _ _ H); lia
  end.

Lemma initStats_ok w :
  healthy 2 (faults w) = true ->
  Db.initStats w =
    (Resolved tt,
     match store_stats w !! "global" with
     | Some _ => pop w
     | None =>
         set_stats (<["global" := Db.initial_stats]> (store_stats w))
           (pop (pop w))
     end).
Proof.
  intros Hw.
  unfold Db.initStats, Db.getStats, try_catch, await, resolve.
  rewrite transaction_ok by still_healthy. cbn [fst snd].
  change (store_stats (pop w)) with (store_stats w).
  destruct (store_stats w !! "global"); [done|].
  rewrite transaction_ok by still_healthy. reflexivity.
Qed.

Lemma incrementUniqueUsers_ok w st :
  healthy 2 (faults w) = true ->
  store_stats w !! "global" = Some st ->
  Db.incrementUniqueUsers w =
    (Resolved (or_zero (Stats.uniqueUsers st) + 1),
     set_stats
       (<[Stats.id st :=
            {| Stats.id := Stats.id st;
               Stats.uniqueUsers := or_zero (Stats.uniqueUsers st) + 1 |}]>
          (store_stats w))
       (pop (pop w))).
Proof.
  intros Hw Hst.
  unfold Db.incrementUniqueUsers, try_catch, await, resolve.
  rewrite transaction_ok by still_healthy. cbn [fst snd].
  change (store_stats (pop w)) with (store_stats w). rewrite Hst.
  rewrite transaction_ok by still_healthy. reflexivity.
Qed.

(** ** The identity resolver *)

Lemma or_zero_id n : or_zero n = n.
Proof. unfold or_zero. destruct (n =? 0) eqn:E; lia. Qed.

Lemma generateFingerprint_frame uuid w :
  store_notes (generateFingerprint uuid w).2 = store_notes w
  /\ store_users (generateFingerprint uuid w).2 = store_users w
  /\ store_stats (generateFingerprint uuid w).2 = store_stats w
  /\ faults (generateFingerprint uuid w).2 = faults w.
Proof.
  unfold generateFingerprint. destruct (localStorage w) as [ls|]; [|done].
  by destruct (truthy_string (ls !! FINGERPRINT_KEY)).
Qed.

Lemma generateFingerprint_local uuid w w' :
  localStorage w = localStorage w' ->
  (generateFingerprint uuid w).1 = (generateFingerprint uuid w').1.
Proof.
  unfold generateFingerprint. intros <-.
  destruct (localStorage w) as [ls|]; [|done].
  by destruct (truthy_string (ls !! FINGERPRINT_KEY)).
Qed.

Lemma counter_insert st m w :
  counter (pop (set_stats (<["global" := st]> m) w)) = Stats.uniqueUsers st.
Proof. unfold counter. simpl. by rewrite lookup_insert_eq. Qed.

(** The avatar URL is computed from the seed alone; reserved bytes of the
    seed are percent-encoded. *)
Example generateAvatar_encodes :
  generateAvatar "a b/c_1"
  = "https://api.dicebear.com/7.x/fun-emoji/svg?seed=a%20b%2Fc_1".
Proof. reflexivity. Qed.

(** C6. When no [User] is stored under the device's fingerprint and the
    transactions of the resolution succeed, [initUser] builds the user
    [newUser fingerprint now] (avatar generated from the fingerprint alone,
    [createdAt] the clock reading of the call), stores it under the
    fingerprint, makes it the current user, and leaves the global counter
    exactly one above its former value; from a counter of [0] it ends at
    [1], which is also the count then displayed. *)
Theorem new_device_is_registered now uuid fingerprint h w :
  healthy 7 (faults w) = true ->
  (forall st, store_stats w !! "global" = Some st -> Stats.id st = "global") ->
  (generateFingerprint uuid w).1 = fingerprint ->
  store_users w !! fingerprint = None ->
  exists h' w',
    UseUser.initUser now uuid h w = (h', w') /\
    UseUser.currentUser h' = Value (UseUser.newUser fingerprint now) /\
    User.avatarUrl (UseUser.newUser fingerprint now)
      = Some (generateAvatar fingerprint) /\
    User.createdAt (UseUser.newUser fingerprint now) = now /\
    store_users w'
      = <[fingerprint := UseUser.newUser fingerprint now]> (store_users w) /\
    counter w' = counter w + 1 /\
    (counter w = 0 -> counter w' = 1 /\ UseUser.uniqueUsers h' = 1).
Proof.
  intros Hw Hkeyed Hfp Hnew.
  unfold UseUser.initUser, UseUser.resolveIdentity, await, UseUser.sync.
  rewrite initStats_ok by still_healthy.
  set (w1 := match store_stats w !! "global" with
             | Some _ => pop w
             | None => set_stats _ (pop (pop w))
             end).
  assert (Husers1 : store_users w1 = store_users w)
    by (subst w1; by destruct (store_stats w !! "global")).
  assert (Hlocal1 : localStorage w1 = localStorage w)
    by (subst w1; by destruct (store_stats w !! "global")).
  assert (Hh1 : healthy 5 (faults w1) = true)
    by (subst w1; destruct (store_stats w !! "global"); still_healthy).
  assert (Hstats1 : exists st1, store_stats w1 !! "global" = Some st1
                      /\ Stats.id st1 = "global"
                      /\ Stats.uniqueUsers st1 = counter w).
  { subst w1. unfold counter.
    destruct (store_stats w !! "global") as [st|] eqn:Hst.
    - exists st. by rewrite (Hkeyed st).
    - exists Db.initial_stats. simpl. by rewrite lookup_insert_eq. }
  destruct Hstats1 as (st1 & Hst1 & Hid1 & Hcount1).
  clearbody w1.
  destruct (generateFingerprint_frame uuid w1) as (_ & Husers2 & Hstats2 & Hf2).
  assert (Hfp1 := generateFingerprint_local uuid w1 w Hlocal1).
  rewrite Hfp in Hfp1.
  destruct (generateFingerprint uuid w1) as [fp w2] eqn:Hgen.
  simpl in Husers2, Hstats2, Hf2, Hfp1. subst fp.
  assert (Hh2 : healthy 5 (faults w2) = true) by (by rewrite Hf2).
  clear Hh1 Hw.
  unfold try_catch, Db.getUser, Db.saveUser, Db.getStats, resolve.
  rewrite transaction_ok by still_healthy. cbn [fst snd].
  change (store_users (pop w2)) with (store_users w2).
  rewrite Husers2, Husers1, Hnew.
  rewrite transaction_ok by still_healthy. cbn [fst snd].
  erewrite incrementUniqueUsers_ok; [|still_healthy|cbn; by rewrite Hstats2].
  rewrite transaction_ok by still_healthy. cbn [fst snd].
  cbn [store_stats store_users pop set_stats set_users set_faults].
  rewrite Hid1, lookup_insert_eq, or_zero_id, Hcount1, Husers2, Husers1.
  cbn [Stats.uniqueUsers].
  do 2 eexists. split; [reflexivity|].
  cbn [UseUser.currentUser UseUser.uniqueUsers store_users].
  split; [done|]. split; [done|]. split; [done|]. split; [done|].
  rewrite !counter_insert. cbn [Stats.uniqueUsers].
  split; [done|]. by intros ->.
Qed.

Lemma new_device_is_registered_witness :
  exists h' w',
    UseUser.initUser 1000 "7f3c" UseUser.initial fresh_world = (h', w') /\
    UseUser.currentUser h' = Value (UseUser.newUser "7f3c" 1000) /\
    User.avatarUrl (UseUser.newUser "7f3c" 1000)
      = Some (generateAvatar "7f3c") /\
    User.createdAt (UseUser.newUser "7f3c" 1000) = 1000 /\
    store_users w'
      = <["7f3c" := UseUser.newUser "7f3c" 1000]> (store_users fresh_world) /\
    counter w' = counter fresh_world + 1 /\
    (counter fresh_world = 0 ->
     counter w' = 1 /\ UseUser.uniqueUsers h' = 1).
Proof.
  apply (new_device_is_registered 1000 "7f3c" "7f3c" UseUser.initial
           fresh_world); try by vm_compute.
Defined.

(** ** The save handlers of the canvas *)

(** C9. A text save can erase drawing content. The note of
    [demo_drawing] is stored with two strokes; both are on the live
    surface, and the cache holds the first only. [handleSaveText] takes
    the cache, does not export the surface, and stores the note with the
    new text and the first stroke alone; no error is reported. *)
Theorem text_save_drops_uncached_stroke :
  exists before c' h' w' after,
    UseNotes.currentNote demo_drawing.1 = Value before /\
    Db.store_get 1 (store_notes demo_drawing.2) = Some before /\
    Note.canvasData before = Some [demo_stroke; demo_stroke2] /\
    Canvas.canvasRef demo_stale_canvas = Some [demo_stroke; demo_stroke2] /\
    Canvas.saveCanvasData demo_stale_canvas = Some [demo_stroke] /\
    Canvas.handleSaveText "device-1" 3000 3001 "Hello" ltr
      demo_stale_canvas demo_drawing.1 demo_drawing.2 = (c', h', w') /\
    UseNotes.error h' = None /\
    Canvas.autoSaveStatus c' = Canvas.saved /\
    Db.store_get 1 (store_notes w') = Some after /\
    Note.textContent after = Some "Hello" /\
    Note.canvasData after = Some [demo_stroke].
Proof. vm_compute. by eexists _, _, _, _, _. Qed.

(** * Further properties of the gateway, the repository and its callers *)

(** ** The note store *)

Lemma store_put_length_new k v l :
  Db.store_get k l = None ->
  length (Db.store_put k v l) = S (length l).
Proof.
  induction l as [|[k0 v0] r IH]; simpl; [done|].
  destruct (k <? k0) eqn:Hlt; simpl; [done|].
  destruct (k =? k0) eqn:Heq; [done|].
  intros H. simpl. by rewrite IH.
Qed.

Lemma store_put_length_existing k v l r :
  StronglySorted Z.lt (map fst l) ->
  Db.store_get k l = Some r ->
  length (Db.store_put k v l) = length l.
Proof.
  induction l as [|[k0 v0] l IH]; simpl; [done|].
  intros [Hall Hs]%StronglySorted_cons Hget.
  destruct (k =? k0) eqn:Heq.
  - destruct (k <? k0) eqn:Hlt; [lia|done].
  - destruct (k <? k0) eqn:Hlt; simpl.
    + exfalso. apply store_get_In in Hget.
      rewrite Forall_forall in Hall.
      assert (k0 < k); [|lia].
      apply Hall, list_elem_of_In, in_map_iff. by exists (k, r).
    + f_equal. by apply IH.
Qed.

Lemma keyed_store_fresh w :
  keyed_store w -> Db.store_get (notes_keygen w) (store_notes w) = None.
Proof.
  intros [_ Hk].
  destruct (Db.store_get (notes_keygen w) (store_notes w)) as [r|] eqn:E;
    [|done].
  apply store_get_In, Hk in E. lia.
Qed.

(** X1. A note written with [saveNote] is read back by [getNote] under
    the key [saveNote] resolved with: unchanged when it carried an [id],
    with the generated key as its [id] otherwise. *)
Theorem saveNote_then_getNote note w :
  healthy 2 (faults w) = true ->
  exists k w1 w2,
    Db.saveNote note w = (Resolved k, w1) /\
    k = default (notes_keygen w) (Note.id note) /\
    Db.getNote k w1
      = (Resolved (Some match Note.id note with
                        | Some _ => note
                        | None => Note.with_id k note
                        end), w2) /\
    store_notes w2 = store_notes w1.
Proof.
  intros Hw.
  exists (Db.notes_put note (pop w)).1, (Db.notes_put note (pop w)).2,
         (pop (Db.notes_put note (pop w)).2).
  unfold Db.saveNote, Db.getNote.
  rewrite !transaction_ok by (rewrite ?notes_put_faults; still_healthy).
  unfold Db.notes_put. destruct (Note.id note) as [k|]; simpl;
    rewrite store_get_put_eq; by repeat split.
Qed.

Lemma saveNote_then_getNote_witness :
  exists k w1 w2,
    Db.saveNote (UseNotes.newNote "device-1" 4000) demo_session.2
      = (Resolved k, w1) /\
    k = 2 /\
    Db.getNote k w1
      = (Resolved (Some (Note.with_id k (UseNotes.newNote "device-1" 4000))),
         w2) /\
    store_notes w2 = store_notes w1.
Proof.
  apply (saveNote_then_getNote (UseNotes.newNote "device-1" 4000)
           demo_session.2). by vm_compute.
Defined.

(** X2. A successful [saveNote] changes the record of one key only: every
    other key of the note store reads as before, and the user store, the
    statistics and [localStorage] are untouched. *)
Theorem saveNote_touches_one_key note w k' :
  healthy 1 (faults w) = true ->
  k' <> default (notes_keygen w) (Note.id note) ->
  Db.store_get k' (store_notes (Db.saveNote note w).2)
    = Db.store_get k' (store_notes w)
  /\ store_users (Db.saveNote note w).2 = store_users w
  /\ store_stats (Db.saveNote note w).2 = store_stats w
  /\ localStorage (Db.saveNote note w).2 = localStorage w.
Proof.
  intros Hw Hne. unfold Db.saveNote.
  rewrite transaction_ok by done. unfold Db.notes_put.
  destruct (Note.id note) as [k|]; simpl in *;
    rewrite store_get_put_ne by done; by repeat split.
Qed.

Lemma saveNote_touches_one_key_witness :
  Db.store_get 1
    (store_notes (Db.saveNote (UseNotes.newNote "device-1" 4000)
                    demo_session.2).2)
    = Db.store_get 1 (store_notes demo_session.2)
  /\ store_users (Db.saveNote (UseNotes.newNote "device-1" 4000)
                    demo_session.2).2 = store_users demo_session.2
  /\ store_stats (Db.saveNote (UseNotes.newNote "device-1" 4000)
                    demo_session.2).2 = store_stats demo_session.2
  /\ localStorage (Db.saveNote (UseNotes.newNote "device-1" 4000)
                     demo_session.2).2 = localStorage demo_session.2.
Proof.
  apply (saveNote_touches_one_key (UseNotes.newNote "device-1" 4000)
           demo_session.2 1); by vm_compute.
Defined.

(** ** The repository *)

(** X3. On a store whose records sit under their own keys below the key
    generator, a successful [createNote] takes a key that held no record,
    adds exactly one record, and leaves every note stored before readable
    and unchanged. *)
Theorem createNote_keeps_existing_notes currentUserId uid now h w :
  truthy_string currentUserId = Some uid ->
  keyed_store w ->
  healthy 2 (faults w) = true ->
  exists created h' w',
    UseNotes.createNote currentUserId now h w = (Value created, h', w') /\
    Db.store_get (notes_keygen w) (store_notes w) = None /\
    Note.id created = Some (notes_keygen w) /\
    length (store_notes w') = S (length (store_notes w)) /\
    (forall k r, Db.store_get k (store_notes w) = Some r ->
                 Db.store_get k (store_notes w') = Some r).
Proof.
  intros Hu Hkeyed Hw. rewrite (createNote_ok _ _ Hu _ _ _ Hw).
  pose proof (keyed_store_fresh w Hkeyed) as Hfresh.
  do 3 eexists. split; [reflexivity|]. split; [done|]. split; [done|].
  simpl. split; [by apply store_put_length_new|].
  intros k r Hget. rewrite store_get_put_ne; [done|].
  intros <-. congruence.
Qed.

Lemma createNote_keeps_existing_notes_witness :
  exists created h' w',
    UseNotes.createNote demo_user 4000 demo_session.1 demo_session.2
      = (Value created, h', w') /\
    Db.store_get (notes_keygen demo_session.2) (store_notes demo_session.2)
      = None /\
    Note.id created = Some (notes_keygen demo_session.2) /\
    length (store_notes w') = S (length (store_notes demo_session.2)) /\
    (forall k r, Db.store_get k (store_notes demo_session.2) = Some r ->
                 Db.store_get k (store_notes w') = Some r).
Proof.
  apply (createNote_keeps_existing_notes demo_user "device-1" 4000
           demo_session.1 demo_session.2); [done| |done].
  apply (run_in_sync demo_user
           [Create 1000; Save 2000 (Partial.canvas [demo_stroke])]
           (UseNotes.initial, fresh_world) fresh_in_sync).
Defined.

(** X4. Along every run of create, save, load and list operations from a
    synchronised state (whatever the storage faults and clock readings),
    a current note that has an [id] is the record held by the store under
    that [id]; and it has an [id], so that it is a stored record, when the
    current note the run started from had one and no update carried an
    [id] that holds [undefined]. *)
Theorem current_note_is_stored_record currentUserId ops st n :
  in_sync st ->
  UseNotes.currentNote (run currentUserId ops st).1 = Value n ->
  (forall k, Note.id n = Some k ->
     Db.store_get k (store_notes (run currentUserId ops st).2) = Some n)
  /\ (keyed_current st -> forallb keeps_key ops = true ->
      exists k,
        Note.id n = Some k /\
        Db.store_get k (store_notes (run currentUserId ops st).2) = Some n).
Proof.
  intros Hst Hn.
  destruct (run_in_sync currentUserId ops st Hst) as [_ Hcur].
  split; [intros k Hk; by apply Hcur|].
  intros Hkeyed Hops.
  destruct (run_keyed_current currentUserId ops st Hst Hkeyed Hops n Hn)
    as [k Hk].
  exists k. split; [done|]. by apply Hcur.
Qed.

Lemma current_note_is_stored_record_witness :
  exists k,
    Note.id demo_note = Some k /\
    Db.store_get k
      (store_notes
         (run demo_user
            [Create 1000; Save 2000 (Partial.canvas [demo_stroke])]
            (UseNotes.initial, fresh_world)).2) = Some demo_note.
Proof.
  destruct (current_note_is_stored_record demo_user
              [Create 1000; Save 2000 (Partial.canvas [demo_stroke])]
              (UseNotes.initial, fresh_world) demo_note) as [_ H].
  - apply fresh_in_sync.
  - by vm_compute.
  - apply H; [discriminate|reflexivity].
Defined.

(** An update that carries [id: undefined] files a copy of the note under
    the generated key and leaves the current note without [id]: the
    record under key 1 stays as it was. *)
Example save_with_undefined_id_files_a_copy :
  exists saved h' w',
    UseNotes.saveCurrentNote demo_user 3000 demo_unkey
      demo_session.1 demo_session.2 = (Value saved, h', w') /\
    Note.id saved = None /\
    UseNotes.currentNote h' = Value saved /\
    Db.store_get 1 (store_notes w') = Some demo_note /\
    Db.store_get 2 (store_notes w') = Some (Note.with_id 2 saved).
Proof. vm_compute. by eexists _, _, _. Qed.

(** X5. A save overwrites in place: in a synchronised state, a successful
    save with an update that carries no [id] leaves the number of stored
    notes unchanged, replaces the record under the current note's key, and
    leaves the record of every other key as it was. *)
Theorem save_overwrites_in_place currentUserId uid now upd h w current k :
  truthy_string currentUserId = Some uid ->
  in_sync (h, w) ->
  UseNotes.currentNote h = Value current ->
  Note.id current = Some k ->
  Partial.id upd = None ->
  healthy 1 (faults w) = true ->
  exists saved h' w',
    UseNotes.saveCurrentNote currentUserId now upd h w
      = (Value saved, h', w') /\
    length (store_notes w') = length (store_notes w) /\
    Db.store_get k (store_notes w') = Some saved /\
    (forall k', k' <> k ->
       Db.store_get k' (store_notes w') = Db.store_get k' (store_notes w)).
Proof.
  intros Hu [[Hsorted _] Hsync] Hcur Hk Hid Hw. simpl in Hsorted, Hsync.
  rewrite (saveCurrentNote_ok _ _ Hu _ _ _ _ _ Hcur Hw).
  pose proof (Hsync current k Hcur Hk) as Hget.
  do 3 eexists. split; [reflexivity|].
  unfold Db.notes_put. simpl. rewrite Hid, Hk. simpl.
  split; [by eapply store_put_length_existing|].
  split; [apply store_get_put_eq|].
  intros k' Hne. by apply store_get_put_ne.
Qed.

Lemma save_overwrites_in_place_witness :
  exists saved h' w',
    UseNotes.saveCurrentNote demo_user 3000 (Partial.text "x" ltr)
      demo_session.1 demo_session.2 = (Value saved, h', w') /\
    length (store_notes w') = length (store_notes demo_session.2) /\
    Db.store_get 1 (store_notes w') = Some saved /\
    (forall k', k' <> 1 ->
       Db.store_get k' (store_notes w')
         = Db.store_get k' (store_notes demo_session.2)).
Proof.
  apply (save_overwrites_in_place demo_user "device-1" 3000
           (Partial.text "x" ltr) demo_session.1 demo_session.2
           demo_note 1); try by vm_compute.
  apply (run_in_sync demo_user
           [Create 1000; Save 2000 (Partial.canvas [demo_stroke])]
           (UseNotes.initial, fresh_world) fresh_in_sync).
Defined.

(** X25. A successful save takes every property the update carries, also
    one that holds [undefined], and keeps the current note's where the
    update has none: so for [title], [createdBy], [createdAt], [textBoxes]
    and [drawings] of the stored record. Its [lastModifiedBy] and
    [lastModifiedAt] are the acting user and the clock reading of the
    call, whatever the update carries for them. *)
Theorem save_takes_carried_properties currentUserId uid now upd h w current :
  truthy_string currentUserId = Some uid ->
  UseNotes.currentNote h = Value current ->
  healthy 1 (faults w) = true ->
  exists saved stored h' w',
    UseNotes.saveCurrentNote currentUserId now upd h w
      = (Value saved, h', w') /\
    stored = Db.put_record saved w /\
    Db.store_get (Db.put_key saved w) (store_notes w') = Some stored /\
    (forall v, Partial.title upd = Some v -> Note.title stored = v) /\
    (Partial.title upd = None -> Note.title stored = Note.title current) /\
    (forall v, Partial.createdBy upd = Some v -> Note.createdBy stored = v) /\
    (Partial.createdBy upd = None ->
       Note.createdBy stored = Note.createdBy current) /\
    (forall v, Partial.createdAt upd = Some v -> Note.createdAt stored = v) /\
    (Partial.createdAt upd = None ->
       Note.createdAt stored = Note.createdAt current) /\
    (forall v, Partial.textBoxes upd = Some v -> Note.textBoxes stored = v) /\
    (Partial.textBoxes upd = None ->
       Note.textBoxes stored = Note.textBoxes current) /\
    (forall v, Partial.drawings upd = Some v -> Note.drawings stored = v) /\
    (Partial.drawings upd = None ->
       Note.drawings stored = Note.drawings current) /\
    Note.lastModifiedBy stored = uid /\
    Note.lastModifiedAt stored = now.
Proof.
  intros Hu Hcur Hw.
  rewrite (saveCurrentNote_ok _ _ Hu _ _ _ _ _ Hcur Hw).
  do 4 eexists. split; [reflexivity|]. split; [reflexivity|].
  split; [apply notes_put_get|].
  unfold Db.put_record. cbn [Note.id UseNotes.noteToSave].
  destruct (default (Note.id current) (Partial.id upd)); simpl;
    repeat split; intros;
    try match goal with H : _ = _ |- _ => by rewrite H end.
Qed.

Lemma save_takes_carried_properties_witness :
  exists saved stored h' w',
    UseNotes.saveCurrentNote demo_user 3000 demo_undate
      demo_session.1 demo_session.2 = (Value saved, h', w') /\
    Db.store_get 1 (store_notes w') = Some stored /\
    Note.createdAt demo_note = Some 1000 /\
    Note.createdAt stored = None /\
    Note.createdBy stored = Some "device-1" /\
    Note.lastModifiedAt stored = 3000.
Proof.
  destruct (save_takes_carried_properties demo_user "device-1" 3000
              demo_undate demo_session.1 demo_session.2 demo_note)
    as (saved & stored & h' & w' & Hsave & Hstored & Hget & _ & _ & _ & Hby
        & Hat & _ & _ & _ & _ & _ & _ & Hstamp); [by vm_compute..|].
  exists saved, stored, h', w'. split; [exact Hsave|].
  assert (Hs : saved = UseNotes.noteToSave demo_note demo_undate
                         "device-1" 3000).
  { vm_compute in Hsave. by simplify_eq. }
  rewrite Hs in Hget.
  split; [exact Hget|]. split; [reflexivity|].
  split; [by apply Hat|]. split; [by rewrite Hby|exact Hstamp].
Defined.

(** X7. When the first transaction of a repository operation is rejected,
    the operation changes no store, no entry of the in-memory list and not
    the current note: it either was stopped by its guard before reaching
    the storage, or records the storage error. *)
Theorem rejected_operation_changes_nothing currentUserId op h w :
  healthy 1 (faults w) = false ->
  store_notes (step currentUserId op (h, w)).2 = store_notes w
  /\ store_users (step currentUserId op (h, w)).2 = store_users w
  /\ store_stats (step currentUserId op (h, w)).2 = store_stats w
  /\ UseNotes.notes (step currentUserId op (h, w)).1 = UseNotes.notes h
  /\ UseNotes.currentNote (step currentUserId op (h, w)).1
       = UseNotes.currentNote h
  /\ (step currentUserId op (h, w) = (h, w)
      \/ UseNotes.error (step currentUserId op (h, w)).1
           = Some StorageError).
Proof.
  intros Hw. destruct op as [now|now upd|noteId|]; unfold step.
  - unfold UseNotes.createNote, await, Db.saveNote.
    destruct (truthy_string currentUserId); [|by repeat split; try left].
    rewrite transaction_fault by done. by repeat split; try right.
  - destruct (UseNotes.currentNote h) as [| |current] eqn:Hcur;
      try (unfold UseNotes.saveCurrentNote; rewrite Hcur;
           by repeat split; try left).
    destruct (truthy_string currentUserId) as [uid|] eqn:Hu;
      [|unfold UseNotes.saveCurrentNote; rewrite Hcur, Hu;
        by repeat split; try left].
    rewrite (saveCurrentNote_fault _ _ Hu _ _ _ _ _ Hcur Hw).
    by repeat split; try right.
  - rewrite (loadNote_fault _ _ _ Hw). by repeat split; try right.
  - unfold UseNotes.loadNotes, Db.getNotes.
    destruct (truthy_string currentUserId); [|by repeat split; try left].
    rewrite transaction_fault by done. by repeat split; try right.
Qed.

Lemma rejected_operation_changes_nothing_witness :
  store_notes
    (step demo_user (Save 3000 (Partial.text "x" ltr))
       (demo_session.1, set_faults [true] demo_session.2)).2
    = store_notes (set_faults [true] demo_session.2)
  /\ UseNotes.error
       (step demo_user (Save 3000 (Partial.text "x" ltr))
          (demo_session.1, set_faults [true] demo_session.2)).1
     = Some StorageError.
Proof.
  destruct (rejected_operation_changes_nothing demo_user
              (Save 3000 (Partial.text "x" ltr)) demo_session.1
              (set_faults [true] demo_session.2))
    as (Hstore & _ & _ & _ & _ & [Hsame|Herr]); [done| |by split].
  exfalso. revert Hsame. by vm_compute.
Defined.

(** X8. When [createNote]'s write succeeds and its read-back is rejected,
    the call reports failure ([null], error recorded, list and current
    note unchanged) although the new note is in the store under the
    generated key. *)
Theorem createNote_read_back_failure currentUserId uid now h w fs :
  truthy_string currentUserId = Some uid ->
  faults w = false :: true :: fs ->
  exists h' w',
    UseNotes.createNote currentUserId now h w = (Null, h', w') /\
    UseNotes.error h' = Some StorageError /\
    UseNotes.notes h' = UseNotes.notes h /\
    UseNotes.currentNote h' = UseNotes.currentNote h /\
    Db.store_get (notes_keygen w) (store_notes w')
      = Some (Note.with_id (notes_keygen w) (UseNotes.newNote uid now)).
Proof.
  intros Hu Hf. unfold UseNotes.createNote, await, Db.saveNote, Db.getNote.
  rewrite Hu.
  rewrite transaction_ok by (by rewrite Hf).
  rewrite transaction_fault
    by (rewrite notes_put_faults; simpl; by rewrite Hf).
  do 2 eexists. split; [reflexivity|]. simpl.
  rewrite store_get_put_eq. by repeat split.
Qed.

Lemma createNote_read_back_failure_witness :
  exists h' w',
    UseNotes.createNote demo_user 4000 demo_session.1
      (set_faults [false; true] demo_session.2) = (Null, h', w') /\
    UseNotes.error h' = Some StorageError /\
    UseNotes.notes h' = UseNotes.notes demo_session.1 /\
    UseNotes.currentNote h' = UseNotes.currentNote demo_session.1 /\
    Db.store_get (notes_keygen (set_faults [false; true] demo_session.2))
      (store_notes w')
      = Some (Note.with_id
                (notes_keygen (set_faults [false; true] demo_session.2))
                (UseNotes.newNote "device-1" 4000)).
Proof.
  apply (createNote_read_back_failure demo_user "device-1" 4000
           demo_session.1 (set_faults [false; true] demo_session.2) []);
    by vm_compute.
Defined.

(** X9. A successful [loadNotes] keeps a current note that is set; when
    none is set it selects a stored note that no stored note is more
    recent than, and on an empty store it selects nothing. *)
Theorem loadNotes_selects_most_recent currentUserId uid h w :
  truthy_string currentUserId = Some uid ->
  healthy 1 (faults w) = true ->
  (forall n, UseNotes.currentNote h = Value n ->
     UseNotes.currentNote (UseNotes.loadNotes currentUserId h w).1 = Value n)
  /\ (falsy (UseNotes.currentNote h) = true ->
      match store_notes w with
      | [] =>
          UseNotes.currentNote (UseNotes.loadNotes currentUserId h w).1
            = UseNotes.currentNote h
      | _ :: _ =>
          exists k first,
            UseNotes.currentNote (UseNotes.loadNotes currentUserId h w).1
              = Value first /\
            In (k, first) (store_notes w) /\
            forall k' r, In (k', r) (store_notes w) ->
              Note.lastModifiedAt r <= Note.lastModifiedAt first
      end).
Proof.
  intros Hu Hw. unfold UseNotes.loadNotes, Db.getNotes.
  rewrite Hu, transaction_ok by done. cbn [fst snd UseNotes.currentNote].
  change (store_notes (pop w)) with (store_notes w).
  pose proof (Array_sort_perm (map snd (store_notes w))) as Hperm.
  pose proof (Array_sort_sorted (map snd (store_notes w))) as Hsorted.
  destruct (Array_sort UseNotes.compareFn (map snd (store_notes w)))
    as [|first rest] eqn:Hsort.
  - split; [done|]. intros _.
    apply Permutation_nil_l in Hperm.
    by destruct (store_notes w).
  - split; [intros n Hn; by rewrite Hn|].
    intros Hfalsy. rewrite Hfalsy.
    destruct (store_notes w) as [|p l] eqn:Hstore.
    { symmetry in Hperm. by apply Permutation_nil_cons in Hperm. }
    rewrite <- Hstore in *.
    assert (Hin : first ∈ map snd (store_notes w))
      by (rewrite <- Hperm; left).
    apply list_elem_of_In, in_map_iff in Hin as ([k r] & <- & Hin).
    exists k, r. split; [done|]. split; [done|].
    intros k' r' Hin'.
    assert (Hr' : r' ∈ r :: rest).
    { rewrite Hperm. apply list_elem_of_In, in_map_iff. by exists (k', r'). }
    apply StronglySorted_cons in Hsorted as [Hall _].
    apply elem_of_cons in Hr' as [->|Hr']; [lia|].
    rewrite Forall_forall in Hall. by apply Hall.
Qed.

Lemma loadNotes_selects_most_recent_witness :
  map (fun p => (fst p, Note.lastModifiedAt (snd p)))
    (store_notes demo_shelf.2)
    = [(1, 4000); (2, 5000); (3, 3000)]
  /\ (exists k first,
        UseNotes.currentNote
          (UseNotes.loadNotes demo_user UseNotes.initial demo_shelf.2).1
          = Value first /\
        In (k, first) (store_notes demo_shelf.2) /\
        Note.id first = Some 2 /\
        Note.lastModifiedAt first = 5000 /\
        forall k' r, In (k', r) (store_notes demo_shelf.2) ->
          Note.lastModifiedAt r <= Note.lastModifiedAt first)
  /\ (exists kept,
        UseNotes.currentNote demo_library.1 = Value kept /\
        Note.lastModifiedAt kept = 2000 /\
        UseNotes.currentNote
          (UseNotes.loadNotes demo_user demo_library.1 demo_library.2).1
          = Value kept)
  /\ UseNotes.currentNote
       (UseNotes.loadNotes demo_user UseNotes.initial fresh_world).1 = Null.
Proof.
  split; [reflexivity|]. split; [|split].
  - destruct (loadNotes_selects_most_recent demo_user "device-1"
                UseNotes.initial demo_shelf.2) as [_ H]; [by vm_compute..|].
    specialize (H eq_refl).
    let v := eval vm_compute in (store_notes demo_shelf.2) in
    change (store_notes demo_shelf.2) with v in H at 1.
    cbv beta iota in H.
    destruct H as (k & first & E & Hin & Hmax).
    exists k, first. split; [exact E|]. split; [exact Hin|].
    assert (Hfirst : Note.id first = Some 2
                     /\ Note.lastModifiedAt first = 5000).
    { vm_compute in E. by simplify_eq. }
    destruct Hfirst as [Hid Hstamp].
    split; [exact Hid|]. split; [exact Hstamp|exact Hmax].
  - destruct (loadNotes_selects_most_recent demo_user "device-1"
                demo_library.1 demo_library.2) as [H _]; [by vm_compute..|].
    exists (Note.with_id 2 (UseNotes.newNote "device-1" 2000)).
    split; [reflexivity|]. split; [reflexivity|].
    apply H. reflexivity.
  - destruct (loadNotes_selects_most_recent demo_user "device-1"
                UseNotes.initial fresh_world) as [_ H]; [by vm_compute..|].
    exact (H eq_refl).
Defined.

(** ** The canvas handlers *)

(** X6. The note a canvas save or a text save leaves current keeps the
    [id], [title], [createdBy], [createdAt], [textBoxes] and [drawings] of
    the note it was made from; after a successful text save its stamp is
    the repository's clock reading and the acting user, not the reading
    the handler took itself. *)
Theorem canvas_saves_keep_identity
    currentUserId nowCanvas nowSave text direction c h w current :
  truthy_string (Some currentUserId) = Some currentUserId ->
  UseNotes.currentNote h = Value current ->
  healthy 1 (faults w) = true ->
  (forall saved,
     UseNotes.currentNote
       (Canvas.handleSave currentUserId nowCanvas nowSave c h w).1.2
       = Value saved ->
     Note.id saved = Note.id current /\
     Note.title saved = Note.title current /\
     Note.createdBy saved = Note.createdBy current /\
     Note.createdAt saved = Note.createdAt current /\
     Note.textBoxes saved = Note.textBoxes current /\
     Note.drawings saved = Note.drawings current)
  /\ (exists saved,
        UseNotes.currentNote
          (Canvas.handleSaveText currentUserId nowCanvas nowSave text
             direction c h w).1.2 = Value saved /\
        Note.id saved = Note.id current /\
        Note.title saved = Note.title current /\
        Note.createdBy saved = Note.createdBy current /\
        Note.createdAt saved = Note.createdAt current /\
        Note.textBoxes saved = Note.textBoxes current /\
        Note.drawings saved = Note.drawings current /\
        Note.lastModifiedAt saved = nowSave /\
        Note.lastModifiedBy saved = currentUserId).
Proof.
  intros Hu Hcur Hw. split.
  - intros saved. unfold Canvas.handleSave. rewrite Hcur.
    destruct (Canvas.canvasRef c) as [live|];
      [|destruct (Canvas.saveCanvasData c) as [ps|]];
      try rewrite (saveCurrentNote_ok _ _ Hu _ _ _ _ _ Hcur Hw); simpl.
    + intros [= <-]. simpl. by destruct (Note.id current).
    + intros [= <-]. simpl. by destruct (Note.id current).
    + rewrite Hcur. by intros [= <-].
  - unfold Canvas.handleSaveText. rewrite Hcur.
    destruct (Canvas.canvasRef c) as [live|];
      destruct (Canvas.saveCanvasData c) as [[|p ps]|];
      try destruct live as [|q qs]; cbn [Canvas.has_paths default];
      rewrite (saveCurrentNote_ok _ _ Hu _ _ _ _ _ Hcur Hw);
      eexists; (split; [reflexivity|]); simpl;
      destruct (Note.id current); by repeat split.
Qed.

Lemma canvas_saves_keep_identity_witness :
  exists saved,
    UseNotes.currentNote
      (Canvas.handleSaveText "device-1" 2990 3000 "Hello" ltr demo_canvas
         demo_session.1 demo_session.2).1.2 = Value saved /\
    Note.id saved = Some 1 /\
    Note.createdAt saved = Some 1000 /\
    Note.lastModifiedAt saved = 3000.
Proof.
  destruct (canvas_saves_keep_identity "device-1" 2990 3000 "Hello" ltr
              demo_canvas demo_session.1 demo_session.2 demo_note)
    as [_ (saved & Hs & Hid & _ & _ & Hc & _ & _ & Hm & _)];
    [by vm_compute..|].
  exists saved. by repeat split.
Defined.

(** X18. The canvas handlers do not look at the result of the save: when
    the storage rejects it, a canvas save that had paths and a text save
    still end in status [saved], while the store is unchanged and the
    repository holds the error. *)
Theorem failed_save_is_shown_as_saved
    currentUserId nowCanvas nowSave text direction c h w current :
  truthy_string (Some currentUserId) = Some currentUserId ->
  UseNotes.currentNote h = Value current ->
  healthy 1 (faults w) = false ->
  (forall paths,
     match Canvas.canvasRef c with
     | Some live => Some live
     | None => Canvas.saveCanvasData c
     end = Some paths ->
     exists c' h' w',
       Canvas.handleSave currentUserId nowCanvas nowSave c h w
         = (c', h', w') /\
       Canvas.autoSaveStatus c' = Canvas.saved /\
       UseNotes.error h' = Some StorageError /\
       UseNotes.currentNote h' = Value current /\
       store_notes w' = store_notes w)
  /\ (exists c' h' w',
        Canvas.handleSaveText currentUserId nowCanvas nowSave text direction
          c h w = (c', h', w') /\
        Canvas.autoSaveStatus c' = Canvas.saved /\
        Canvas.quickText c' = text /\
        UseNotes.error h' = Some StorageError /\
        UseNotes.currentNote h' = Value current /\
        store_notes w' = store_notes w).
Proof.
  intros Hu Hcur Hw. split.
  - intros paths Hpaths. unfold Canvas.handleSave. rewrite Hcur.
    destruct (Canvas.canvasRef c) as [live|]; simplify_eq; rewrite ?Hpaths;
      rewrite (saveCurrentNote_fault _ _ Hu _ _ _ _ _ Hcur Hw);
      do 3 eexists; by repeat split.
  - unfold Canvas.handleSaveText. rewrite Hcur.
    destruct (Canvas.canvasRef c) as [live|];
      destruct (Canvas.has_paths (Canvas.saveCanvasData c));
      rewrite (saveCurrentNote_fault _ _ Hu _ _ _ _ _ Hcur Hw);
      do 3 eexists; by repeat split.
Qed.

Lemma failed_save_is_shown_as_saved_witness :
  exists c' h' w',
    Canvas.handleSaveText "device-1" 2990 3000 "Hello" ltr demo_canvas
      demo_session.1 (set_faults [true] demo_session.2) = (c', h', w') /\
    Canvas.autoSaveStatus c' = Canvas.saved /\
    UseNotes.error h' = Some StorageError /\
    store_notes w' = store_notes demo_session.2.
Proof.
  destruct (failed_save_is_shown_as_saved "device-1" 2990 3000 "Hello" ltr
              demo_canvas demo_session.1 (set_faults [true] demo_session.2)
              demo_note)
    as [_ (c' & h' & w' & Hrun & Hst & _ & Herr & _ & Hstore)];
    [by vm_compute..|].
  exists c', h', w'. by repeat split.
Defined.

(** X24. A text save persists the cached paths, and the export of the
    live surface only when the cache is empty; the record it stores
    carries the new text and direction together with that canvas data
    when it is non-empty, and the note's former canvas data otherwise, so
    canvas data that was non-empty stays non-empty. A canvas save stores
    the exported (or, without a surface, cached) paths, also when they are
    empty, and keeps the note's text and direction; with neither surface
    nor cache it saves nothing. *)
Theorem save_handlers_merge
    currentUserId nowCanvas nowSave text direction c h w current k :
  truthy_string (Some currentUserId) = Some currentUserId ->
  UseNotes.currentNote h = Value current ->
  Note.id current = Some k ->
  healthy 1 (faults w) = true ->
  (exists stored c' h' w',
     Canvas.handleSaveText currentUserId nowCanvas nowSave text direction
       c h w = (c', h', w') /\
     Db.store_get k (store_notes w') = Some stored /\
     UseNotes.currentNote h' = Value stored /\
     Note.textContent stored = Some text /\
     Note.textDirection stored = Some direction /\
     Note.canvasData stored =
       (if Canvas.has_paths (cache_first c) then cache_first c
        else Note.canvasData current) /\
     (Canvas.has_paths (Note.canvasData current) = true ->
      Canvas.has_paths (Note.canvasData stored) = true))
  /\ (forall paths,
        match Canvas.canvasRef c with
        | Some live => Some live
        | None => Canvas.saveCanvasData c
        end = Some paths ->
        exists stored c' h' w',
          Canvas.handleSave currentUserId nowCanvas nowSave c h w
            = (c', h', w') /\
          Db.store_get k (store_notes w') = Some stored /\
          UseNotes.currentNote h' = Value stored /\
          Note.canvasData stored = Some paths /\
          Note.textContent stored = Note.textContent current /\
          Note.textDirection stored = Note.textDirection current)
  /\ (Canvas.canvasRef c = None -> Canvas.saveCanvasData c = None ->
      Canvas.handleSave currentUserId nowCanvas nowSave c h w
        = (Canvas.set_status Canvas.saving c, h, w)).
Proof.
  intros Hu Hcur Hk Hw. split; [|split].
  - unfold Canvas.handleSaveText, cache_first. rewrite Hcur.
    destruct (Canvas.canvasRef c) as [live|];
      destruct (Canvas.saveCanvasData c) as [[|p ps]|];
      try destruct live as [|q qs]; cbn [Canvas.has_paths default];
      rewrite (saveCurrentNote_ok _ _ Hu _ _ _ _ _ Hcur Hw);
      do 4 eexists; (split; [reflexivity|]);
      unfold Db.notes_put; simpl; rewrite Hk; simpl;
      rewrite store_get_put_eq;
      repeat split; try done;
      simpl; by destruct (Note.canvasData current).
  - intros paths Hpaths. unfold Canvas.handleSave. rewrite Hcur.
    destruct (Canvas.canvasRef c) as [live|]; simplify_eq; rewrite ?Hpaths;
      rewrite (saveCurrentNote_ok _ _ Hu _ _ _ _ _ Hcur Hw);
      do 4 eexists; (split; [reflexivity|]);
      unfold Db.notes_put; simpl; rewrite Hk; simpl;
      rewrite store_get_put_eq;
      repeat split; try done;
      simpl;
      by destruct (Note.textContent current), (Note.textDirection current).
  - intros Href Hcache. unfold Canvas.handleSave.
    by rewrite Hcur, Href, Hcache.
Qed.

Lemma save_handlers_merge_witness :
  (exists stored c' h' w',
     Canvas.handleSaveText "device-1" 3000 3001 "Hello" ltr
       demo_uncached_canvas demo_texted.1 demo_texted.2 = (c', h', w') /\
     Db.store_get 1 (store_notes w') = Some stored /\
     Note.textContent stored = Some "Hello" /\
     Note.textDirection stored = Some ltr /\
     Note.canvasData stored = Some [demo_stroke; demo_stroke2])
  /\ (exists before stored c' h' w',
        Db.store_get 1 (store_notes demo_texted.2) = Some before /\
        Note.canvasData before = Some [demo_stroke] /\
        Canvas.handleSave "device-1" 3000 3001 demo_uncached_canvas
          demo_texted.1 demo_texted.2 = (c', h', w') /\
        Db.store_get 1 (store_notes w') = Some stored /\
        Note.canvasData stored = Some [demo_stroke; demo_stroke2] /\
        Note.textContent stored = Some "old" /\
        Note.textDirection stored = Some rtl).
Proof.
  destruct (save_handlers_merge "device-1" 3000 3001 "Hello" ltr
              demo_uncached_canvas demo_texted.1 demo_texted.2
              (UseNotes.noteToSave demo_note (Partial.text "old" rtl)
                 "device-1" 2500) 1)
    as ((stored & c' & h' & w' & Hsave & Hget & _ & Htext & Hdir & Hcanvas
         & _) & Hcanvas_save & _); [by vm_compute..|].
  split.
  - exists stored, c', h', w'. by repeat split.
  - destruct (Hcanvas_save [demo_stroke; demo_stroke2] eq_refl)
      as (stored2 & c2 & h2 & w2 & Hsave2 & Hget2 & _ & Hc2 & Ht2 & Hd2).
    eexists _, stored2, c2, h2, w2.
    split; [by vm_compute|]. split; [reflexivity|].
    by repeat split.
Defined.

(** ** Statistics and identity *)

(** X10. [initStats] never rejects and touches only the statistics store.
    When its read succeeds on a present record the store is left as it
    is. Otherwise (record absent, or read rejected, in which case a
    present count is not seen) it writes the initial record with count
    [0] if its write or the one retry succeeds, and nothing if both are
    rejected. *)
Theorem initStats_outcomes w :
  exists w',
    Db.initStats w = (Resolved tt, w') /\
    store_notes w' = store_notes w /\ store_users w' = store_users w /\
    store_stats w' =
      if healthy 1 (faults w)
         && bool_decide (is_Some (store_stats w !! "global"))
      then store_stats w
      else if healthy 1 (faults (pop w))
              || healthy 1 (faults (pop (pop w)))
           then <["global" := Db.initial_stats]> (store_stats w)
           else store_stats w.
Proof.
  unfold Db.initStats, Db.getStats, try_catch, await, resolve.
  destruct (healthy 1 (faults w)) eqn:H1.
  - rewrite transaction_ok by done. cbn [fst snd andb].
    change (store_stats (pop w)) with (store_stats w).
    destruct (store_stats w !! "global") as [st|] eqn:Hst.
    + rewrite bool_decide_eq_true_2 by eauto.
      eexists. by repeat split.
    + rewrite bool_decide_eq_false_2 by (by intros [? ?]).
      destruct (healthy 1 (faults (pop w))) eqn:H2.
      * rewrite transaction_ok by done. eexists. by repeat split.
      * rewrite transaction_fault by done. cbn [fst snd orb].
        destruct (healthy 1 (faults (pop (pop w)))) eqn:H3.
        -- rewrite transaction_ok by done. eexists. by repeat split.
        -- rewrite transaction_fault by done. eexists. by repeat split.
  - rewrite transaction_fault by done. cbn [fst snd andb].
    destruct (healthy 1 (faults (pop w))) eqn:H2.
    + rewrite transaction_ok by done. eexists. by repeat split.
    + rewrite transaction_fault by done. cbn [fst snd orb].
      destruct (healthy 1 (faults (pop (pop w)))) eqn:H3.
      * rewrite transaction_ok by done. eexists. by repeat split.
      * rewrite transaction_fault by done. eexists. by repeat split.
Qed.

(** X11. With [localStorage] available and a non-empty generated id,
    [generateFingerprint] is stable: a stored non-empty fingerprint is
    returned as it is, and whatever the first call returned is returned
    by every later call, which changes nothing. The database is never
    touched. *)
Theorem generateFingerprint_is_stable uuid uuid' w ls :
  localStorage w = Some ls ->
  uuid <> EmptyString ->
  generateFingerprint uuid' (generateFingerprint uuid w).2
    = ((generateFingerprint uuid w).1, (generateFingerprint uuid w).2)
  /\ (forall stored,
        ls !! FINGERPRINT_KEY = Some stored -> stored <> EmptyString ->
        generateFingerprint uuid w = (stored, w))
  /\ store_notes (generateFingerprint uuid w).2 = store_notes w
  /\ store_users (generateFingerprint uuid w).2 = store_users w
  /\ store_stats (generateFingerprint uuid w).2 = store_stats w.
Proof.
  intros Hls Huuid.
  assert (Htruthy : forall s, s <> EmptyString ->
            truthy_string (Some s) = Some s).
  { intros [|a s] Hs; [done|reflexivity]. }
  split; [|split].
  - unfold generateFingerprint at 2 3 4. rewrite Hls.
    destruct (truthy_string (ls !! FINGERPRINT_KEY)) as [fp|] eqn:Hfp.
    + simpl. unfold generateFingerprint. by rewrite Hls, Hfp.
    + simpl. unfold generateFingerprint. simpl.
      by rewrite lookup_insert_eq, Htruthy.
  - intros stored Hstored Hne. unfold generateFingerprint.
    by rewrite Hls, Hstored, Htruthy.
  - unfold generateFingerprint. rewrite Hls.
    by destruct (truthy_string (ls !! FINGERPRINT_KEY)).
Qed.

Lemma generateFingerprint_is_stable_witness :
  generateFingerprint "other"
    (generateFingerprint "7f3c" fresh_world).2
    = ((generateFingerprint "7f3c" fresh_world).1,
       (generateFingerprint "7f3c" fresh_world).2)
  /\ (generateFingerprint "7f3c" fresh_world).1 = "7f3c".
Proof.
  destruct (generateFingerprint_is_stable "7f3c" "other" fresh_world ∅)
    as [H _]; [done..|].
  split; [exact H|reflexivity].
Defined.

Lemma truthy_string_nonempty s :
  s <> EmptyString -> truthy_string (Some s) = Some s.
Proof. by destruct s. Qed.

Lemma generateFingerprint_again uuid uuid' w w' ls :
  localStorage w = Some ls ->
  uuid <> EmptyString ->
  localStorage w' = localStorage (generateFingerprint uuid w).2 ->
  (generateFingerprint uuid' w').1 = (generateFingerprint uuid w).1.
Proof.
  intros Hls Huuid Hw'.
  rewrite (generateFingerprint_local uuid' w'
             (generateFingerprint uuid w).2 Hw').
  unfold generateFingerprint at 2 3. rewrite Hls.
  destruct (truthy_string (ls !! FINGERPRINT_KEY)) as [fp|] eqn:Hfp.
  - simpl. unfold generateFingerprint. by rewrite Hls, Hfp.
  - simpl. unfold generateFingerprint. simpl.
    by rewrite lookup_insert_eq, truthy_string_nonempty.
Qed.

(** The state after [initStats] on a schedule that is healthy for
    [2 + m] transactions. *)
Lemma initStats_then w m :
  healthy (2 + m) (faults w) = true ->
  exists w1,
    Db.initStats w = (Resolved tt, w1) /\
    store_notes w1 = store_notes w /\
    store_users w1 = store_users w /\
    localStorage w1 = localStorage w /\
    healthy m (faults w1) = true /\
    (forall k, k <> "global" -> store_stats w1 !! k = store_stats w !! k) /\
    exists st1,
      store_stats w1 !! "global" = Some st1 /\
      Stats.uniqueUsers st1 = counter w /\
      (Stats.id st1 = "global" \/ store_stats w !! "global" = Some st1).
Proof.
  intros Hw. rewrite initStats_ok by still_healthy.
  unfold counter.
  destruct (store_stats w !! "global") as [st|] eqn:Hst.
  - exists (pop w). repeat split; try done; [still_healthy|].
    exists st. split; [exact Hst|]. split; [done|by right].
  - eexists. split; [reflexivity|]. repeat split; try done; [still_healthy| |].
    + intros k Hk. simpl. by rewrite lookup_insert_ne.
    + exists Db.initial_stats. simpl. rewrite lookup_insert_eq.
      by repeat split; try left.
Qed.

Lemma initUser_known_device now uuid fingerprint user h w m :
  healthy (4 + m) (faults w) = true ->
  (generateFingerprint uuid w).1 = fingerprint ->
  store_users w !! fingerprint = Some user ->
  exists h' w',
    UseUser.initUser now uuid h w = (h', w') /\
    UseUser.currentUser h' = Value user /\
    UseUser.error h' = UseUser.error h /\
    UseUser.uniqueUsers h'
      = (if counter w =? 0 then UseUser.uniqueUsers h else counter w) /\
    store_users w' = store_users w /\
    store_notes w' = store_notes w /\
    counter w' = counter w /\
    localStorage w' = localStorage (generateFingerprint uuid w).2 /\
    healthy m (faults w') = true.
Proof.
  intros Hw Hfp Huser.
  destruct (initStats_then w (2 + m) Hw)
    as (w1 & Hinit & Hnotes1 & Husers1 & Hlocal1 & Hh1 & _
        & st1 & Hst1 & Hcount1 & _).
  unfold UseUser.initUser, UseUser.resolveIdentity, await, UseUser.sync.
  rewrite Hinit.
  destruct (generateFingerprint_frame uuid w1)
    as (Hnotes2 & Husers2 & Hstats2 & Hf2).
  assert (Hfp1 := generateFingerprint_local uuid w1 w Hlocal1).
  rewrite Hfp in Hfp1.
  assert (Hlocal2 : localStorage (generateFingerprint uuid w1).2
                    = localStorage (generateFingerprint uuid w).2).
  { unfold generateFingerprint. rewrite Hlocal1.
    destruct (localStorage w) as [ls|] eqn:Els; [|simpl; congruence].
    destruct (truthy_string (ls !! FINGERPRINT_KEY)); simpl; congruence. }
  destruct (generateFingerprint uuid w1) as [fp w2] eqn:Hgen.
  simpl in Hnotes2, Husers2, Hstats2, Hf2, Hfp1, Hlocal2. subst fp.
  assert (Hh2 : healthy (2 + m) (faults w2) = true) by (by rewrite Hf2).
  clear Hh1 Hw.
  unfold try_catch, Db.getUser, Db.getStats, resolve.
  rewrite transaction_ok by still_healthy. cbn [fst snd].
  change (store_users (pop w2)) with (store_users w2).
  rewrite Husers2, Husers1, Huser.
  rewrite transaction_ok by still_healthy. cbn [fst snd].
  cbn [store_stats pop set_faults].
  rewrite Hstats2, Hst1, Hcount1.
  do 2 eexists. split; [reflexivity|].
  cbn [UseUser.currentUser UseUser.error UseUser.uniqueUsers].
  split; [done|]. split; [done|].
  split; [by destruct (counter w =? 0)|].
  split; [simpl; congruence|]. split; [simpl; congruence|].
  split; [unfold counter at 1; simpl; by rewrite Hstats2, Hst1|].
  split; [done|]. still_healthy.
Qed.

(** X12. A device whose user is stored is recognised: when the
    transactions succeed, [initUser] makes the stored record the current
    user as it is, writes no user, records no error and leaves the global
    counter at its value. *)
Theorem returning_device_is_recognised now uuid fingerprint user h w :
  healthy 4 (faults w) = true ->
  (generateFingerprint uuid w).1 = fingerprint ->
  store_users w !! fingerprint = Some user ->
  exists h' w',
    UseUser.initUser now uuid h w = (h', w') /\
    UseUser.currentUser h' = Value user /\
    UseUser.error h' = UseUser.error h /\
    store_users w' = store_users w /\
    counter w' = counter w.
Proof.
  intros Hw Hfp Huser.
  destruct (initUser_known_device now uuid fingerprint user h w 0 Hw Hfp
              Huser)
    as (h' & w' & Hrun & Hcur & Herr & _ & Husers & _ & Hcount & _).
  by exists h', w'.
Qed.

Lemma returning_device_is_recognised_witness :
  exists h' w',
    UseUser.initUser 9000 "other" UseUser.initial
      (UseUser.initUser 1000 "7f3c" UseUser.initial fresh_world).2
      = (h', w') /\
    UseUser.currentUser h' = Value (UseUser.newUser "7f3c" 1000) /\
    UseUser.error h' = UseUser.error UseUser.initial /\
    store_users w'
      = store_users
          (UseUser.initUser 1000 "7f3c" UseUser.initial fresh_world).2 /\
    counter w'
      = counter (UseUser.initUser 1000 "7f3c" UseUser.initial fresh_world).2.
Proof.
  apply (returning_device_is_recognised 9000 "other" "7f3c"
           (UseUser.newUser "7f3c" 1000) UseUser.initial
           (UseUser.initUser 1000 "7f3c" UseUser.initial fresh_world).2);
    by vm_compute.
Defined.

Lemma initUser_unknown_device now uuid fingerprint h w m :
  healthy (7 + m) (faults w) = true ->
  (forall st, store_stats w !! "global" = Some st -> Stats.id st = "global") ->
  (generateFingerprint uuid w).1 = fingerprint ->
  store_users w !! fingerprint = None ->
  exists h' w',
    UseUser.initUser now uuid h w = (h', w') /\
    UseUser.currentUser h' = Value (UseUser.newUser fingerprint now) /\
    store_users w'
      = <[fingerprint := UseUser.newUser fingerprint now]> (store_users w) /\
    counter w' = counter w + 1 /\
    (forall st, store_stats w' !! "global" = Some st ->
                Stats.id st = "global") /\
    localStorage w' = localStorage (generateFingerprint uuid w).2 /\
    healthy m (faults w') = true.
Proof.
  intros Hw Hkeyed Hfp Hnew.
  destruct (initStats_then w (5 + m) Hw)
    as (w1 & Hinit & Hnotes1 & Husers1 & Hlocal1 & Hh1 & _
        & st1 & Hst1 & Hcount1 & Hid1).
  assert (Hid : Stats.id st1 = "global")
    by (destruct Hid1 as [?|?]; [done|by apply Hkeyed]).
  unfold UseUser.initUser, UseUser.resolveIdentity, await, UseUser.sync.
  rewrite Hinit.
  destruct (generateFingerprint_frame uuid w1)
    as (Hnotes2 & Husers2 & Hstats2 & Hf2).
  assert (Hfp1 := generateFingerprint_local uuid w1 w Hlocal1).
  rewrite Hfp in Hfp1.
  assert (Hlocal2 : localStorage (generateFingerprint uuid w1).2
                    = localStorage (generateFingerprint uuid w).2).
  { unfold generateFingerprint. rewrite Hlocal1.
    destruct (localStorage w) as [ls|] eqn:Els; [|simpl; congruence].
    destruct (truthy_string (ls !! FINGERPRINT_KEY)); simpl; congruence. }
  destruct (generateFingerprint uuid w1) as [fp w2] eqn:Hgen.
  simpl in Hnotes2, Husers2, Hstats2, Hf2, Hfp1, Hlocal2. subst fp.
  assert (Hh2 : healthy (5 + m) (faults w2) = true) by (by rewrite Hf2).
  clear Hh1 Hw.
  unfold try_catch, Db.getUser, Db.saveUser, Db.getStats, resolve.
  rewrite transaction_ok by still_healthy. cbn [fst snd].
  change (store_users (pop w2)) with (store_users w2).
  rewrite Husers2, Husers1, Hnew.
  rewrite transaction_ok by still_healthy. cbn [fst snd].
  erewrite incrementUniqueUsers_ok;
    [|still_healthy|cbn; by rewrite Hstats2].
  rewrite transaction_ok by still_healthy. cbn [fst snd].
  cbn [store_stats store_users pop set_stats set_users set_faults].
  rewrite Hid, lookup_insert_eq, or_zero_id, Hcount1, Husers2, Husers1.
  do 2 eexists. split; [reflexivity|].
  cbn [UseUser.currentUser store_users pop set_stats set_users set_faults].
  split; [done|]. split; [done|].
  split; [by rewrite counter_insert|].
  split.
  { cbn [store_stats pop set_stats set_users set_faults].
    rewrite lookup_insert_eq. by intros ? [= <-]. }
  split; [done|]. still_healthy.
Qed.

(** X13. A device is registered once: when the first resolution finds no
    stored user (with [localStorage] available and a non-empty generated
    id) and the transactions succeed, a second resolution, at any later
    reading and whatever id the generator would yield, ends with the same
    current user and leaves the user store and the counter as the first
    one left them. *)
Theorem device_is_registered_once now now' uuid uuid' fingerprint h w ls :
  healthy 11 (faults w) = true ->
  (forall st, store_stats w !! "global" = Some st -> Stats.id st = "global") ->
  localStorage w = Some ls ->
  uuid <> EmptyString ->
  (generateFingerprint uuid w).1 = fingerprint ->
  store_users w !! fingerprint = None ->
  exists h1 w1 h2 w2,
    UseUser.initUser now uuid h w = (h1, w1) /\
    UseUser.initUser now' uuid' h1 w1 = (h2, w2) /\
    UseUser.currentUser h1 = Value (UseUser.newUser fingerprint now) /\
    UseUser.currentUser h2 = Value (UseUser.newUser fingerprint now) /\
    store_users w2 = store_users w1 /\
    counter w1 = counter w + 1 /\
    counter w2 = counter w + 1.
Proof.
  intros Hw Hkeyed Hls Huuid Hfp Hnew.
  destruct (initUser_unknown_device now uuid fingerprint h w 4 Hw Hkeyed Hfp
              Hnew)
    as (h1 & w1 & Hrun1 & Hcur1 & Husers1 & Hcount1 & _ & Hlocal1 & Hh1).
  assert (Hfp' : (generateFingerprint uuid' w1).1 = fingerprint).
  { rewrite <- Hfp. by eapply generateFingerprint_again. }
  assert (Huser : store_users w1 !! fingerprint
                  = Some (UseUser.newUser fingerprint now))
    by (by rewrite Husers1, lookup_insert_eq).
  destruct (initUser_known_device now' uuid' fingerprint _ h1 w1 0 Hh1 Hfp'
              Huser)
    as (h2 & w2 & Hrun2 & Hcur2 & _ & _ & Husers2 & _ & Hcount2 & _).
  exists h1, w1, h2, w2. repeat split; try done. congruence.
Qed.

Lemma device_is_registered_once_witness :
  exists h1 w1 h2 w2,
    UseUser.initUser 1000 "7f3c" UseUser.initial fresh_world = (h1, w1) /\
    UseUser.initUser 9000 "other" h1 w1 = (h2, w2) /\
    UseUser.currentUser h1 = Value (UseUser.newUser "7f3c" 1000) /\
    UseUser.currentUser h2 = Value (UseUser.newUser "7f3c" 1000) /\
    store_users w2 = store_users w1 /\
    counter w1 = counter fresh_world + 1 /\
    counter w2 = counter fresh_world + 1.
Proof.
  apply (device_is_registered_once 1000 9000 "7f3c" "other" "7f3c"
           UseUser.initial fresh_world ∅); try by vm_compute.
Defined.

(** Discharges [healthy n fs' = true] for the rest [fs'] of a schedule
    known by [E : faults w = b :: fs] with [H : healthy m fs = true]. *)
Ltac schedule_from E H :=
  cbn [faults pop set_faults set_notes set_users set_stats set_localStorage];
  rewrite ?E; cbn [tail]; repeat apply healthy_tail;
  refine (healthy_le _ _ _ _ H); lia.

(** X14. A rejected user lookup is taken for an unknown device: when the
    read of the user is rejected and the following transactions succeed,
    [initUser] writes a new user record under the fingerprint (replacing
    whatever was stored there), makes it current, reports no error and
    raises the counter by one. *)
Theorem unreadable_user_is_registered_again
    now uuid fingerprint st h w fs :
  store_stats w !! "global" = Some st ->
  Stats.id st = "global" ->
  faults w = false :: true :: fs ->
  healthy 4 fs = true ->
  (generateFingerprint uuid w).1 = fingerprint ->
  exists h' w',
    UseUser.initUser now uuid h w = (h', w') /\
    UseUser.currentUser h' = Value (UseUser.newUser fingerprint now) /\
    UseUser.error h' = UseUser.error h /\
    store_users w'
      = <[fingerprint := UseUser.newUser fingerprint now]> (store_users w) /\
    counter w' = counter w + 1.
Proof.
  intros Hst Hid Hf Hfs Hfp.
  unfold UseUser.initUser, UseUser.resolveIdentity, await, UseUser.sync.
  unfold Db.initStats, Db.getStats, try_catch at 1 2, await, resolve.
  rewrite transaction_ok by (by rewrite Hf). cbn [fst snd].
  change (store_stats (pop w)) with (store_stats w). rewrite Hst.
  destruct (generateFingerprint_frame uuid (pop w))
    as (_ & Husers2 & Hstats2 & Hf2).
  assert (Hfp1 := generateFingerprint_local uuid (pop w) w eq_refl).
  rewrite Hfp in Hfp1.
  destruct (generateFingerprint uuid (pop w)) as [fp w2] eqn:Hgen.
  simpl in Husers2, Hstats2, Hf2, Hfp1. subst fp.
  rewrite Hf in Hf2. simpl in Hf2.
  unfold try_catch, Db.getUser, Db.saveUser, resolve.
  rewrite transaction_fault by (by rewrite Hf2). cbn [fst snd].
  rewrite transaction_ok by schedule_from Hf2 Hfs. cbn [fst snd].
  erewrite incrementUniqueUsers_ok;
    [|schedule_from Hf2 Hfs|cbn; rewrite Hstats2; exact Hst].
  rewrite transaction_ok by schedule_from Hf2 Hfs. cbn [fst snd].
  cbn [store_stats store_users pop set_stats set_users set_faults].
  rewrite Hid, lookup_insert_eq, or_zero_id, Husers2.
  do 2 eexists. split; [reflexivity|].
  cbn [UseUser.currentUser UseUser.error store_users pop set_stats
       set_users set_faults].
  split; [done|]. split; [done|]. split; [done|].
  rewrite counter_insert. unfold counter. by rewrite Hst.
Qed.

Lemma unreadable_user_is_registered_again_witness :
  exists h' w',
    UseUser.initUser 9000 "other" UseUser.initial
      (set_faults [false; true]
         (UseUser.initUser 1000 "7f3c" UseUser.initial fresh_world).2)
      = (h', w') /\
    UseUser.currentUser h' = Value (UseUser.newUser "7f3c" 9000) /\
    UseUser.error h' = None /\
    store_users w' !! "7f3c" = Some (UseUser.newUser "7f3c" 9000) /\
    counter w' = 2.
Proof.
  destruct (unreadable_user_is_registered_again 9000 "other" "7f3c"
              {| Stats.id := "global"; Stats.uniqueUsers := 1 |}
              UseUser.initial
              (set_faults [false; true]
                 (UseUser.initUser 1000 "7f3c" UseUser.initial
                    fresh_world).2) [])
    as (h' & w' & Hrun & Hcur & Herr & Husers & Hcount); [by vm_compute..|].
  exists h', w'. split; [exact Hrun|]. split; [exact Hcur|].
  split; [exact Herr|]. split; [by rewrite Husers, lookup_insert_eq|].
  rewrite Hcount. by vm_compute.
Defined.

(** ** The avatar URL *)

Lemma hex_digit_code n :
  (n < 16)%N ->
  N_of_ascii (hex_digit n) = (if (n <? 10)%N then 48 + n else 55 + n)%N.
Proof.
  intros Hn. unfold hex_digit.
  destruct (n <? 10)%N; apply N_ascii_embedding; lia.
Qed.

Lemma hex_digit_inj n m :
  (n < 16)%N -> (m < 16)%N -> hex_digit n = hex_digit m -> n = m.
Proof.
  intros Hn Hm Heq. apply (f_equal N_of_ascii) in Heq.
  rewrite !hex_digit_code in Heq by done.
  destruct (n <? 10)%N eqn:En, (m <? 10)%N eqn:Em;
    rewrite ?N.ltb_lt, ?N.ltb_ge in *; lia.
Qed.

Lemma hex_digit_unreserved n :
  (n < 16)%N -> uri_unreserved (hex_digit n) = true.
Proof.
  intros Hn. unfold uri_unreserved. rewrite hex_digit_code by done.
  destruct (n <? 10)%N eqn:En; rewrite ?N.ltb_lt, ?N.ltb_ge in *.
  - replace ((48 <=? 48 + n) && (48 + n <=? 57))%N with true;
      [by rewrite !orb_true_r|].
    symmetry. apply andb_true_iff. split; apply N.leb_le; lia.
  - replace ((65 <=? 55 + n) && (55 + n <=? 90))%N with true; [done|].
    symmetry. apply andb_true_iff. split; apply N.leb_le; lia.
Qed.

Lemma ascii_code_bound c : (N_of_ascii c < 256)%N.
Proof. apply N_ascii_bounded. Qed.

Lemma percent_encode_inj c1 c2 :
  percent_encode c1 = percent_encode c2 -> c1 = c2.
Proof.
  unfold percent_encode. intros [= Hhi Hlo].
  pose proof (ascii_code_bound c1). pose proof (ascii_code_bound c2).
  apply hex_digit_inj in Hhi;
    [|apply N.Div0.div_lt_upper_bound; lia..].
  apply hex_digit_inj in Hlo; [|apply N.mod_lt; lia..].
  rewrite <- (ascii_N_embedding c1), <- (ascii_N_embedding c2).
  f_equal.
  rewrite (N.div_mod (N_of_ascii c1) 16), (N.div_mod (N_of_ascii c2) 16)
    by lia.
  congruence.
Qed.

Lemma encodeURIComponent_inj s1 s2 :
  encodeURIComponent s1 = encodeURIComponent s2 -> s1 = s2.
Proof.
  revert s2. induction s1 as [|c1 r1 IH]; intros [|c2 r2]; simpl.
  - done.
  - by destruct (uri_unreserved c2).
  - by destruct (uri_unreserved c1).
  - destruct (uri_unreserved c1) eqn:U1, (uri_unreserved c2) eqn:U2; simpl.
    + intros [= -> H]. f_equal. by apply IH.
    + intros [= -> _]. by vm_compute in U1.
    + intros [= <- _]. by vm_compute in U2.
    + intros [= Hhi Hlo H].
      assert (c1 = c2) as ->
        by (apply percent_encode_inj; unfold percent_encode; congruence).
      f_equal. by apply IH.
Qed.

(** X15. Avatar URLs tell seeds apart: two different seeds (fingerprints)
    never get the same URL from [generateAvatar]. *)
Theorem generateAvatar_tells_seeds_apart seed1 seed2 :
  seed1 <> seed2 -> generateAvatar seed1 <> generateAvatar seed2.
Proof.
  intros Hne Heq. apply Hne, encodeURIComponent_inj.
  unfold generateAvatar in Heq. simpl in Heq. by simplify_eq.
Qed.

Lemma generateAvatar_tells_seeds_apart_witness :
  generateAvatar "a b" <> generateAvatar "a%20b".
Proof. by apply generateAvatar_tells_seeds_apart. Defined.

(** X16. Whatever the seed, the part of the avatar URL that
    [encodeURIComponent] produces consists of unreserved characters and
    the percent sign only, so a seed cannot add a separator of its own to
    the query string. *)
Theorem encodeURIComponent_is_url_safe seed :
  Forall (fun c => uri_unreserved c = true \/ c = "%"%char)
    (list_ascii_of_string (encodeURIComponent seed)).
Proof.
  induction seed as [|c r IH]; simpl; [constructor|].
  destruct (uri_unreserved c) eqn:U; simpl.
  - constructor; [by left|done].
  - pose proof (ascii_code_bound c).
    constructor; [by right|].
    constructor;
      [left; apply hex_digit_unreserved, N.Div0.div_lt_upper_bound; lia|].
    constructor; [left; apply hex_digit_unreserved, N.mod_lt; lia|done].
Qed.

(** ** The order of the listing *)

Lemma sort_insert_filter t (a : Note.t) l :
  filter (fun n => Note.lastModifiedAt n = t)
    (sort_insert UseNotes.compareFn a l)
  = filter (fun n => Note.lastModifiedAt n = t) (a :: l).
Proof.
  induction l as [|b r IH]; simpl; [done|].
  destruct (0 <? UseNotes.compareFn a b) eqn:E; [|done].
  apply Z.ltb_lt in E. unfold UseNotes.compareFn in E.
  rewrite (filter_cons _ b), IH, !filter_cons.
  repeat case_decide; try done; lia.
Qed.

Lemma Array_sort_filter t (l : list Note.t) :
  filter (fun n => Note.lastModifiedAt n = t)
    (Array_sort UseNotes.compareFn l)
  = filter (fun n => Note.lastModifiedAt n = t) l.
Proof.
  induction l as [|a r IH]; simpl; [done|].
  by rewrite sort_insert_filter, !filter_cons, IH.
Qed.

(** X17. Notes with the same [lastModifiedAt] are listed in the order of
    the store (ascending key): for every stamp, the notes of that stamp
    appear in the list [loadNotes] produces exactly as they follow each
    other in the store. *)
Theorem loadNotes_keeps_ties_in_store_order currentUserId uid h w t :
  truthy_string currentUserId = Some uid ->
  healthy 1 (faults w) = true ->
  filter (fun n => Note.lastModifiedAt n = t)
    (UseNotes.notes (UseNotes.loadNotes currentUserId h w).1)
  = filter (fun n => Note.lastModifiedAt n = t) (map snd (store_notes w)).
Proof.
  intros Hu Hw. destruct (loadNotes_ok _ _ h w Hu Hw) as [-> _].
  apply Array_sort_filter.
Qed.

Lemma loadNotes_keeps_ties_in_store_order_witness :
  filter (fun n => Note.lastModifiedAt n = 5000)
    (UseNotes.notes
       (UseNotes.loadNotes demo_user UseNotes.initial
          (run demo_user [Create 5000; Create 5000; Create 4000]
             (UseNotes.initial, fresh_world)).2).1)
  = filter (fun n => Note.lastModifiedAt n = 5000)
      (map snd
         (store_notes
            (run demo_user [Create 5000; Create 5000; Create 4000]
               (UseNotes.initial, fresh_world)).2)).
Proof.
  apply (loadNotes_keeps_ties_in_store_order demo_user "device-1");
    by vm_compute.
Defined.

(** ** The application handlers *)

(** Spreading a note over itself changes nothing: what is left of the
    save is the stamp. *)
Lemma noteToSave_of_note n by_ at_ :
  UseNotes.noteToSave n (Partial.of_note n) by_ at_ = stamp by_ at_ n.
Proof.
  destruct n as [id ? ? ? ? ? ? ? canvas text dir].
  by destruct id, canvas, text, dir.
Qed.

(** X20. [handleSaveNote] passes the whole current note as the update, so
    a successful call stores the note with nothing changed but the stamp;
    it clears the unsaved-changes flag whatever the outcome, also when the
    storage rejected the save and the store is as before. *)
Theorem handleSaveNote_restamps currentUserId uid now a h w current k :
  truthy_string currentUserId = Some uid ->
  UseNotes.currentNote h = Value current ->
  Note.id current = Some k ->
  App.hasUnsavedChanges
    (App.handleSaveNote currentUserId now a h w).1.1 = false
  /\ (healthy 1 (faults w) = true ->
      UseNotes.currentNote (App.handleSaveNote currentUserId now a h w).1.2
        = Value (stamp uid now current) /\
      Db.store_get k
        (store_notes (App.handleSaveNote currentUserId now a h w).2)
        = Some (stamp uid now current))
  /\ (healthy 1 (faults w) = false ->
      UseNotes.error (App.handleSaveNote currentUserId now a h w).1.2
        = Some StorageError /\
      store_notes (App.handleSaveNote currentUserId now a h w).2
        = store_notes w).
Proof.
  intros Hu Hcur Hk. unfold App.handleSaveNote. rewrite Hcur.
  destruct (healthy 1 (faults w)) eqn:Hw.
  - rewrite (saveCurrentNote_ok _ _ Hu _ _ _ _ _ Hcur Hw), noteToSave_of_note.
    split; [done|]. split; [|done]. intros _. split; [done|].
    unfold Db.notes_put. simpl. rewrite Hk. apply store_get_put_eq.
  - rewrite (saveCurrentNote_fault _ _ Hu _ _ _ _ _ Hcur Hw).
    by repeat split.
Qed.

Lemma handleSaveNote_restamps_witness :
  App.hasUnsavedChanges
    (App.handleSaveNote demo_user 3000 (App.onCanvasChange App.initial)
       demo_session.1 demo_session.2).1.1 = false
  /\ Db.store_get 1
       (store_notes
          (App.handleSaveNote demo_user 3000
             (App.onCanvasChange App.initial)
             demo_session.1 demo_session.2).2)
     = Some (stamp "device-1" 3000 demo_note).
Proof.
  destruct (handleSaveNote_restamps demo_user "device-1" 3000
              (App.onCanvasChange App.initial) demo_session.1
              demo_session.2 demo_note 1)
    as (Hflag & Hok & _); [by vm_compute..|].
  split; [exact Hflag|]. by apply Hok.
Defined.

(** X21. The "save changes" action of the dialog, in a synchronised state
    with all three transactions succeeding: the open note is stored with a
    new stamp under its key, a blank note is created under a key that was
    free, it becomes the current note and the head of the list, and both
    flags are cleared. *)
Theorem saveChanges_keeps_both_notes
    currentUserId uid nowSave nowCreate a h w current k :
  truthy_string currentUserId = Some uid ->
  in_sync (h, w) ->
  UseNotes.currentNote h = Value current ->
  Note.id current = Some k ->
  healthy 3 (faults w) = true ->
  exists a' h' w' created k',
    App.saveChanges currentUserId nowSave nowCreate a h w = (a', h', w') /\
    App.hasUnsavedChanges a' = false /\
    App.showSaveDialog a' = false /\
    k' <> k /\
    Db.store_get k' (store_notes w) = None /\
    Db.store_get k (store_notes w') = Some (stamp uid nowSave current) /\
    Db.store_get k' (store_notes w') = Some created /\
    created = Note.with_id k' (UseNotes.newNote uid nowCreate) /\
    UseNotes.currentNote h' = Value created /\
    head (UseNotes.notes h') = Some created.
Proof.
  intros Hu Hsync Hcur Hk Hw.
  assert (H1 : healthy 1 (faults w) = true) by still_healthy.
  pose proof (step_in_sync currentUserId
                (Save nowSave (Partial.of_note current)) (h, w) Hsync)
    as Hsync1.
  unfold step in Hsync1.
  unfold App.saveChanges, App.handleSaveNote, App.createNewNote.
  rewrite Hcur.
  rewrite (saveCurrentNote_ok _ _ Hu _ _ _ _ _ Hcur H1) in *.
  rewrite noteToSave_of_note in *.
  set (w1 := (Db.notes_put (stamp uid nowSave current) (pop w)).2) in *.
  assert (Hh1 : healthy 2 (faults w1) = true).
  { subst w1. rewrite notes_put_faults. still_healthy. }
  rewrite (createNote_ok _ _ Hu _ _ _ Hh1).
  destruct Hsync1 as [Hkeyed1 _]. simpl in Hkeyed1.
  assert (Hget1 : Db.store_get k (store_notes w1)
                  = Some (stamp uid nowSave current)).
  { subst w1. unfold Db.notes_put. simpl. rewrite Hk.
    apply store_get_put_eq. }
  assert (Hlt : k < notes_keygen w1).
  { destruct Hkeyed1 as [_ Hb].
    by destruct (Hb k _ (store_get_In _ _ _ Hget1)). }
  assert (Hfresh : Db.store_get (notes_keygen w1) (store_notes w) = None).
  { destruct (Db.store_get (notes_keygen w1) (store_notes w)) as [r|] eqn:E;
      [|done].
    destruct Hsync as [[_ Hb] _]. apply store_get_In, Hb in E. simpl in E.
    subst w1. unfold Db.notes_put in *. simpl in *. rewrite Hk in *.
    simpl in *. destruct (notes_keygen w <=? k) eqn:E'; lia. }
  exists (App.setHasUnsavedChanges false
            (App.setShowSaveDialog false
               (App.setHasUnsavedChanges false a))).
  do 2 eexists. exists (Note.with_id (notes_keygen w1)
                          (UseNotes.newNote uid nowCreate)),
                       (notes_keygen w1).
  split; [reflexivity|]. split; [done|]. split; [done|].
  split; [lia|]. split; [done|]. simpl.
  rewrite store_get_put_eq, store_get_put_ne by lia.
  by repeat split.
Qed.

Lemma saveChanges_keeps_both_notes_witness :
  exists a' h' w' created k',
    App.saveChanges demo_user 3000 3001 (App.onCanvasChange App.initial)
      demo_session.1 demo_session.2 = (a', h', w') /\
    App.hasUnsavedChanges a' = false /\
    App.showSaveDialog a' = false /\
    k' <> 1 /\
    Db.store_get k' (store_notes demo_session.2) = None /\
    Db.store_get 1 (store_notes w')
      = Some (stamp "device-1" 3000 demo_note) /\
    Db.store_get k' (store_notes w') = Some created /\
    created = Note.with_id k' (UseNotes.newNote "device-1" 3001) /\
    UseNotes.currentNote h' = Value created /\
    head (UseNotes.notes h') = Some created.
Proof.
  apply (saveChanges_keeps_both_notes demo_user "device-1" 3000 3001
           (App.onCanvasChange App.initial) demo_session.1 demo_session.2
           demo_note 1); try by vm_compute.
  apply (run_in_sync demo_user
           [Create 1000; Save 2000 (Partial.canvas [demo_stroke])]
           (UseNotes.initial, fresh_world) fresh_in_sync).
Defined.

(** X22. Selecting another stored note with unsaved changes pending
    (synchronised state, both transactions succeeding) first stores the
    open note with a new stamp under its key, then makes the selected
    note current and clears the flag; without pending changes the open
    note is not written. *)
Theorem handleNoteSelect_saves_before_switching
    currentUserId uid nowSave noteId a h w current k target :
  truthy_string currentUserId = Some uid ->
  UseNotes.currentNote h = Value current ->
  Note.id current = Some k ->
  noteId <> k ->
  Db.store_get noteId (store_notes w) = Some target ->
  healthy 2 (faults w) = true ->
  exists a' h' w',
    App.handleNoteSelect currentUserId nowSave noteId a h w = (a', h', w') /\
    App.hasUnsavedChanges a' = false /\
    UseNotes.currentNote h' = Value target /\
    Db.store_get noteId (store_notes w') = Some target /\
    Db.store_get k (store_notes w')
      = (if App.hasUnsavedChanges a
         then Some (stamp uid nowSave current)
         else Db.store_get k (store_notes w)).
Proof.
  intros Hu Hcur Hk Hne Htarget Hw.
  assert (H1 : healthy 1 (faults w) = true) by still_healthy.
  unfold App.handleNoteSelect.
  destruct (App.hasUnsavedChanges a).
  - rewrite Hcur, (saveCurrentNote_ok _ _ Hu _ _ _ _ _ Hcur H1),
      noteToSave_of_note.
    set (w1 := (Db.notes_put (stamp uid nowSave current) (pop w)).2).
    assert (Hstore1 : store_notes w1
                      = Db.store_put k (stamp uid nowSave current)
                          (store_notes w)).
    { subst w1. unfold Db.notes_put. simpl. by rewrite Hk. }
    erewrite (loadNote_found noteId target);
      [|subst w1; rewrite notes_put_faults; still_healthy
       |by rewrite Hstore1, store_get_put_ne].
    do 3 eexists. split; [reflexivity|]. simpl.
    rewrite Hstore1, store_get_put_eq, store_get_put_ne by done.
    by repeat split.
  - rewrite (loadNote_found noteId target) by done.
    do 3 eexists. split; [reflexivity|]. by repeat split.
Qed.

Lemma handleNoteSelect_saves_before_switching_witness :
  exists a' h' w',
    App.handleNoteSelect demo_user 5000 1
      (App.onCanvasChange App.initial)
      (run demo_user [Create 4000] demo_session).1
      (run demo_user [Create 4000] demo_session).2 = (a', h', w') /\
    App.hasUnsavedChanges a' = false /\
    UseNotes.currentNote h' = Value demo_note /\
    Db.store_get 1 (store_notes w') = Some demo_note /\
    Db.store_get 2 (store_notes w')
      = Some (stamp "device-1" 5000
                (Note.with_id 2 (UseNotes.newNote "device-1" 4000))).
Proof.
  apply (handleNoteSelect_saves_before_switching demo_user "device-1" 5000 1
           (App.onCanvasChange App.initial)
           (run demo_user [Create 4000] demo_session).1
           (run demo_user [Create 4000] demo_session).2
           (Note.with_id 2 (UseNotes.newNote "device-1" 4000)) 2 demo_note);
    by vm_compute.
Defined.

(** ** Panning *)

Lemma last_cons (e p : Point) moves :
  List.last (e :: moves) p = List.last moves e.
Proof.
  revert e p. induction moves as [|m ms IH]; intros e p; [done|].
  change (List.last (e :: m :: ms) p) with (List.last (m :: ms) p).
  by rewrite (IH m p), (IH m e).
Qed.

Lemma panning_moves moves p o space :
  foldl (fun s e => PanningTool.handlePanning e s)
    {| PanningTool.isPanning := true; PanningTool.initialPosition := p;
       PanningTool.offset := o; PanningTool.isSpaceDown := space |} moves
  = {| PanningTool.isPanning := true;
       PanningTool.initialPosition := List.last moves p;
       PanningTool.offset :=
         {| point_x := point_x o + (point_x (List.last moves p) - point_x p);
            point_y := point_y o + (point_y (List.last moves p) - point_y p)
         |};
       PanningTool.isSpaceDown := space |}.
Proof.
  revert p o. induction moves as [|e moves IH]; intros p o.
  - destruct o as [ox oy]. simpl. f_equal. f_equal; lia.
  - rewrite last_cons. cbn [foldl].
    unfold PanningTool.handlePanning at 2.
    cbn [PanningTool.isPanning PanningTool.initialPosition
         PanningTool.offset PanningTool.isSpaceDown].
    rewrite IH. cbn [point_x point_y]. f_equal. f_equal; lia.
Qed.

(** X23. A drag moves the content by the displacement of the pointer:
    from rest, with panning enabled (space held or the tool active) and
    the container mounted, press, any moves and release leave the offset
    grown by the last pointer position minus the position of the press,
    with panning off again; with panning not enabled the same events
    change nothing. *)
Theorem drag_moves_by_displacement isActive mounted start moves s :
  PanningTool.isPanning s = false ->
  PanningTool.drag isActive mounted start moves s
  = if (PanningTool.isSpaceDown s || isActive) && mounted
    then {| PanningTool.isPanning := false;
            PanningTool.initialPosition := List.last moves start;
            PanningTool.offset :=
              {| point_x := point_x (PanningTool.offset s)
                            + (point_x (List.last moves start)
                               - point_x start);
                 point_y := point_y (PanningTool.offset s)
                            + (point_y (List.last moves start)
                               - point_y start) |};
            PanningTool.isSpaceDown := PanningTool.isSpaceDown s |}
    else s.
Proof.
  intros Hrest. unfold PanningTool.drag, PanningTool.handleStartPanning.
  destruct ((PanningTool.isSpaceDown s || isActive) && mounted).
  - by rewrite panning_moves.
  - assert (Hidle : forall l st, PanningTool.isPanning st = false ->
              foldl (fun s e => PanningTool.handlePanning e s) st l = st).
    { induction l as [|e l IH]; intros st Hst; [done|].
      simpl. unfold PanningTool.handlePanning at 2. rewrite Hst.
      by apply IH. }
    rewrite Hidle by done. unfold PanningTool.handleStopPanning.
    by rewrite Hrest.
Qed.

Lemma drag_moves_by_displacement_witness :
  PanningTool.drag true true {| point_x := 10; point_y := 10 |}
    [ {| point_x := 14; point_y := 9 |};
      {| point_x := 30; point_y := 25 |} ] PanningTool.initial
  = {| PanningTool.isPanning := false;
       PanningTool.initialPosition := {| point_x := 30; point_y := 25 |};
       PanningTool.offset := {| point_x := 20; point_y := 15 |};
       PanningTool.isSpaceDown := false |}.
Proof.
  by rewrite (drag_moves_by_displacement true true
                {| point_x := 10; point_y := 10 |}
                [ {| point_x := 14; point_y := 9 |};
                  {| point_x := 30; point_y := 25 |} ] PanningTool.initial).
Defined.
